(** * sfp_virustotal: a shallow embedding of the VirusTotal plugin

    The plugin (modules/sfp_virustotal.py) receives typed events from the
    SpiderFoot scan engine, queries the VirusTotal REST API for the value an
    event carries and notifies its listeners of what it found.  The engine,
    the network layer, DNS, the JSON parser and netaddr are collaborators
    outside the file: they are the fields of the [Host] class below, and every
    statement is proved for an arbitrary host.

    [handleEvent] and [query] are written in a small monad that threads the
    plugin's instance attributes ([results], [errorState]) and the state of
    the outside world, collects the observable effects of a call (fetches,
    sleeps, log lines, notified events) in order, and propagates Python
    exceptions. *)

From Stdlib Require Import ZArith String Ascii List Bool Lia.
From stdpp Require Import base gmap strings list pretty.

Import ListNotations.
Local Open Scope string_scope.
Local Open Scope Z_scope.
Local Open Scope list_scope.
Local Open Scope stdpp_scope.

(** ** Python values *)

(** What [json.loads] returns.  Numbers are never inspected by the plugin and
    are kept as their literal; an object keeps its members in document order,
    with distinct keys. *)
#[warnings="-register-all"]
Inductive json : Type :=
| JNull
| JBool (b : bool)
| JNum (lit : string)
| JStr (s : string)
| JArr (items : list json)
| JObj (members : list (string * json)).

Inductive exn : Type :=
| AttributeError
| TypeError
| UnboundLocalError
| AddrFormatError
| ValueError.

(** [d.get(k)] / [d[k]] on a parsed object. *)
Fixpoint dict_get (k : string) (d : list (string * json)) : option json :=
  match d with
  | [] => None
  | (k', v) :: d' => if String.eqb k' k then Some v else dict_get k d'
  end.

(** A Python [str] is held as the bytes of its UTF-8 encoding.  A byte
    [10xxxxxx] continues the character begun before it. *)
Definition continuation (c : ascii) : bool :=
  let n := nat_of_ascii c in ((128 <=? n) && (n <? 192))%nat.

(** The continuation bytes a string begins with, and the characters after
    them. *)
Fixpoint points (s : string) : string * list string :=
  match s with
  | EmptyString => (EmptyString, [])
  | String c s' =>
      let (pending, after) := points s' in
      if continuation c then (String c pending, after)
      else (EmptyString, String c pending :: after)
  end.

(** The characters of a [str], as iterating over it yields them. *)
Definition chars (s : string) : list json :=
  let (pending, after) := points s in
  map JStr (match pending with EmptyString => after | _ => pending :: after end).

(** [len(v)]: [None] stands for the TypeError of a value without a length. *)
Definition py_len (v : json) : option nat :=
  match v with
  | JArr items => Some (length items)
  | JObj members => Some (length members)
  | JStr s => Some (length (chars s))
  | JNull | JBool _ | JNum _ => None
  end.

(** [for x in v]: [None] stands for the TypeError of a value that is not
    iterable. *)
Definition py_iter (v : json) : option (list json) :=
  match v with
  | JArr items => Some items
  | JObj members => Some (map (fun kv => JStr (fst kv)) members)
  | JStr s => Some (chars s)
  | JNull | JBool _ | JNum _ => None
  end.

(** [v in results] for the [tempStorage()] dictionary, whose keys are strings:
    lists and dictionaries are unhashable (TypeError, [None]). *)
Definition py_in (v : json) (results : gmap string bool) : option bool :=
  match v with
  | JStr s => Some (bool_decide (is_Some (results !! s)))
  | JNull | JBool _ | JNum _ => Some false
  | JArr _ | JObj _ => None
  end.

(** ** Events, options, effects *)

(** The attributes of an incoming [SpiderFootEvent] that the plugin reads. *)
Record Event : Type := mkEvent {
  eventType : string;
  module : string;
  data : string
}.

(** [SpiderFootEvent(type, data, self.__name__, event)] as built by the plugin. *)
Record SpiderFootEvent : Type := mkSpiderFootEvent {
  sfType : string;
  sfData : json;
  sfModule : string;
  sfSource : Event
}.

(** [opts], with the two entries the engine adds ([_fetchtimeout],
    [_internettlds]).  The record stands for a dictionary that holds all
    eleven keys, each with a value of the type of its default: the KeyError
    of a lookup in a dictionary that lacks a key is not a path of the
    embedding ([options], further down, reads the record off a
    dictionary). *)
Record Opts : Type := mkOpts {
  api_key : string;
  verify : bool;
  publicapi : bool;
  checkcohosts : bool;
  checkaffiliates : bool;
  netblocklookup : bool;
  maxnetblock : Z;
  subnetlookup : bool;
  maxsubnet : Z;
  _fetchtimeout : Z;
  _internettlds : list string
}.

Definition default_opts : Opts :=
  {| api_key := ""; verify := true; publicapi := true; checkcohosts := true;
     checkaffiliates := true; netblocklookup := true; maxnetblock := 24;
     subnetlookup := true; maxsubnet := 24;
     _fetchtimeout := 5; _internettlds := [] |}.

(** [IPNetwork(s)]: the prefix length and the addresses in iteration order,
    each already converted with [str]. *)
Record Network : Type := mkNetwork {
  prefixlen : Z;
  addresses : list string
}.

Inductive Effect : Type :=
| Fetch (url : string) (timeout : Z) (useragent : string)
| Sleep (seconds : Z)
| LogInfo (msg : string)
| LogDebug (msg : string)
| LogError (msg : string)
| Notify (e : SpiderFootEvent).

(** ** The host *)

(** Everything the plugin calls that lives outside the file.  Calls whose
    answer may change during a scan take and return the state of the world. *)
Class Host : Type := {
  World : Type;
  (** [self.sf.validIP] *)
  validIP : string -> bool;
  (** [self.sf.fetchUrl(url, timeout=..., useragent=...)['content']] *)
  fetchUrl : string -> Z -> string -> World -> option string * World;
  (** [json.loads]: the parsed value, or the text of the exception raised *)
  json_loads : string -> json + string;
  (** [self.checkForStop()] *)
  checkForStop : World -> bool * World;
  (** truth value of [self.sf.resolveHost(s)] *)
  resolveHost : json -> World -> bool * World;
  (** [self.sf.isDomain(s, tlds)] *)
  isDomain : json -> list string -> bool;
  (** [self.getTarget().matches(s)] *)
  matches : json -> bool;
  (** [netaddr.IPNetwork]; [None] when it raises on a malformed block *)
  IPNetwork : string -> option Network;
  (** the exception [netaddr.IPNetwork] raises on a string it rejects:
      AddrFormatError as a rule, ValueError when the string does not split
      into an address and one prefix *)
  IPNetwork_error : string -> exn
}.

(** ** The plugin *)

Definition producedEvents : list string :=
  ["MALICIOUS_IPADDR"; "MALICIOUS_INTERNET_NAME";
   "MALICIOUS_COHOST"; "MALICIOUS_AFFILIATE_INTERNET_NAME";
   "MALICIOUS_AFFILIATE_IPADDR"; "MALICIOUS_NETBLOCK";
   "MALICIOUS_SUBNET"; "INTERNET_NAME"; "AFFILIATE_INTERNET_NAME";
   "INTERNET_NAME_UNRESOLVED"; "DOMAIN_NAME"].

Definition watchedEvents : list string :=
  ["IP_ADDRESS"; "AFFILIATE_IPADDR"; "INTERNET_NAME";
   "CO_HOSTED_SITE"; "NETBLOCK_OWNER";
   "NETBLOCK_MEMBER"].

(** [self.__name__], set by the module loader. *)
Definition __name__ : string := "sfp_virustotal".

Definition newline : string := String (ascii_of_nat 10) EmptyString.

Inductive Outcome (A : Type) : Type :=
| Returned (a : A)
| Raised (e : exn).
Arguments Returned {A} a.
Arguments Raised {A} e.

(** Where a loop body leaves the loop: [Next] for falling through or
    [continue], [Exit] for [return None]. *)
Inductive Flow : Type := Next | Exit.

Section Plugin.
Context `{host : Host}.
Variable opts : Opts.

(** The instance attributes a call can change, and the world. *)
Record Machine : Type := mkMachine {
  results : gmap string bool;
  errorState : bool;
  world : World
}.

Definition M (A : Type) : Type := Machine -> Outcome A * Machine * list Effect.

Definition ret {A} (a : A) : M A := fun m => (Returned a, m, []).

Definition bind {A B} (c : M A) (k : A -> M B) : M B :=
  fun m =>
    match c m with
    | (Returned a, m1, t1) =>
        match k a m1 with
        | (r, m2, t2) => (r, m2, t1 ++ t2)
        end
    | (Raised e, m1, t1) => (Raised e, m1, t1)
    end.

Definition raise {A} (e : exn) : M A := fun m => (Raised e, m, []).

Definition tell (e : Effect) : M unit := fun m => (Returned tt, m, [e]).

Definition get {A} (f : Machine -> A) : M A := fun m => (Returned (f m), m, []).

Definition set_results (k : string) : M unit :=
  fun m => (Returned tt, mkMachine (<[k := true]> (results m)) (errorState m) (world m), []).

Definition set_errorState (b : bool) : M unit :=
  fun m => (Returned tt, mkMachine (results m) b (world m), []).

Definition ask {A} (f : World -> A * World) : M A :=
  fun m =>
    match f (world m) with
    | (a, w) => (Returned a, mkMachine (results m) (errorState m) w, [])
    end.

(** A call of [self.sf.fetchUrl]: recorded, then answered by the world. *)
Definition fetch (url : string) (timeout : Z) (useragent : string) : M (option string) :=
  fun m =>
    match fetchUrl url timeout useragent (world m) with
    | (c, w) => (Returned c, mkMachine (results m) (errorState m) w,
                 [Fetch url timeout useragent])
    end.

Definition lift {A} (e : exn) (o : option A) : M A :=
  match o with Some a => ret a | None => raise e end.

Notation "'let*' x ':=' c 'in' k" := (bind c (fun x => k))
  (at level 10, x name, c at level 200, k at level 200).

(** [for x in l: body], for a body without [return]. *)
Fixpoint for_in {A} (body : A -> M unit) (l : list A) : M unit :=
  match l with
  | [] => ret tt
  | x :: l' => let* _ := body x in for_in body l'
  end.

(** [for x in l: body], where the body may [return]. *)
Fixpoint for_each {A} (body : A -> M Flow) (l : list A) : M Flow :=
  match l with
  | [] => ret Next
  | x :: l' =>
      let* f := body x in
      match f with
      | Next => for_each body l'
      | Exit => ret Exit
      end
  end.

Definition query (qry : string) : M json :=
  let url :=
    if validIP qry
    then "https://www.virustotal.com/vtapi/v2/ip-address/report?ip=" +:+ qry
    else "https://www.virustotal.com/vtapi/v2/domain/report?domain=" +:+ qry in
  let* res := fetch (url +:+ "&apikey=" +:+ api_key opts) (_fetchtimeout opts) "SpiderFoot" in
  let* _ := (if publicapi opts then tell (Sleep 15) else ret tt) in
  match res with
  | None =>
      let* _ := tell (LogInfo ("No VirusTotal info found for " +:+ qry)) in
      ret JNull
  | Some content =>
      match json_loads content with
      | inr e =>
          let* _ := tell (LogError ("Error processing JSON response from VirusTotal: " +:+ e)) in
          let* _ := set_errorState true in
          ret JNull
      | inl v => ret v
      end
  end.

Definition startswith (s p : string) : bool := String.prefix p s.

Definition notifyListeners (e : SpiderFootEvent) : M unit := tell (Notify e).

(** The assignments to [evt] and [infotype] (lines 199-217), in order; [None]
    when no branch assigns them.  The event name is the same in every
    iteration of the loop, so a binding left over from an earlier iteration
    never differs from the one made in the current one. *)
Definition evt_infotype (eventName : string) : option (string * string) :=
  let r := None in
  let r := if String.eqb eventName "IP_ADDRESS" || startswith eventName "NETBLOCK_"
           then Some ("MALICIOUS_IPADDR", "ip-address") else r in
  let r := if String.eqb eventName "AFFILIATE_IPADDR"
           then Some ("MALICIOUS_AFFILIATE_IPADDR", "ip-address") else r in
  let r := if String.eqb eventName "INTERNET_NAME"
           then Some ("MALICIOUS_INTERNET_NAME", "domain") else r in
  let r := if String.eqb eventName "AFFILIATE_INTERNET_NAME"
           then Some ("MALICIOUS_AFFILIATE_INTERNET_NAME", "domain") else r in
  let r := if String.eqb eventName "CO_HOSTED_SITE"
           then Some ("MALICIOUS_COHOST", "domain") else r in
  r.

(** Lines 197-224: the malicious-indicator event for one queried address. *)
Definition detected (event : Event) (addr : string) (n : nat) : M unit :=
  if (0 <? n)%nat then
    let* _ := tell (LogInfo ("Found VirusTotal URL data for " +:+ addr)) in
    match evt_infotype (eventType event) with
    | None => raise UnboundLocalError
    | Some (evt, infotype) =>
        let infourl := "<SFURL>https://www.virustotal.com/en/" +:+ infotype +:+ "/" +:+
                       addr +:+ "/information/</SFURL>" in
        notifyListeners
          (mkSpiderFootEvent evt (JStr ("VirusTotal [" +:+ addr +:+ "]" +:+ newline +:+ infourl))
             __name__ event)
    end
  else ret tt.

(** [s not in self.results]. *)
Definition not_in_results (s : json) : M bool :=
  let* r := get results in
  let* seen := lift TypeError (py_in s r) in
  ret (negb seen).

(** Lines 231-247: the body of the loop over [info['domain_siblings']]. *)
Definition sibling (event : Event) (s : json) : M unit :=
  if matches s then
    let* fresh := not_in_results s in
    if fresh then
      let* _ :=
        (if verify opts then
           let* resolved := ask (resolveHost s) in
           if negb resolved
           then notifyListeners (mkSpiderFootEvent "INTERNET_NAME_UNRESOLVED" s __name__ event)
           else notifyListeners (mkSpiderFootEvent "INTERNET_NAME" s __name__ event)
         else ret tt) in
      if isDomain s (_internettlds opts)
      then notifyListeners (mkSpiderFootEvent "DOMAIN_NAME" s __name__ event)
      else ret tt
    else ret tt
  else
    let* fresh := not_in_results s in
    if fresh
    then notifyListeners (mkSpiderFootEvent "AFFILIATE_INTERNET_NAME" s __name__ event)
    else ret tt.

(** Lines 251-262: the body of the loop over [info['subdomains']]. *)
Definition subdomain (event : Event) (n : json) : M unit :=
  let* fresh := not_in_results n in
  if fresh then
    let* _ :=
      (if verify opts then
         let* resolved := ask (resolveHost n) in
         if negb resolved
         then notifyListeners (mkSpiderFootEvent "INTERNET_NAME_UNRESOLVED" n __name__ event)
         else ret tt
       else notifyListeners (mkSpiderFootEvent "INTERNET_NAME" n __name__ event)) in
    if isDomain n (_internettlds opts)
    then notifyListeners (mkSpiderFootEvent "DOMAIN_NAME" n __name__ event)
    else ret tt
  else ret tt.

(** Lines 228-247. *)
Definition domain_siblings (event : Event) (info : list (string * json)) : M unit :=
  match dict_get "domain_siblings" info with
  | Some siblings =>
      if String.eqb (eventType event) "IP_ADDRESS" || String.eqb (eventType event) "INTERNET_NAME" then
        let* l := lift TypeError (py_iter siblings) in
        for_in (sibling event) l
      else ret tt
  | None => ret tt
  end.

(** Lines 249-262. *)
Definition subdomains (event : Event) (info : list (string * json)) : M unit :=
  match dict_get "subdomains" info with
  | Some names =>
      if String.eqb (eventType event) "INTERNET_NAME" then
        let* l := lift TypeError (py_iter names) in
        for_in (subdomain event) l
      else ret tt
  | None => ret tt
  end.

(** [info.get('detected_urls', [])]. *)
Definition detected_urls (info : list (string * json)) : json :=
  match dict_get "detected_urls" info with
  | Some v => v
  | None => JArr []
  end.

(** Lines 195-262: what the loop body does with the answer of [query].  The
    first use of [info] is [info.get], which only a dictionary has. *)
Definition report (event : Event) (addr : string) (info : json) : M Flow :=
  match info with
  | JNull => ret Next
  | JObj members =>
      let* n := lift TypeError (py_len (detected_urls members)) in
      let* _ := detected event addr n in
      let* _ := domain_siblings event members in
      let* _ := subdomains event members in
      ret Next
  | JBool _ | JNum _ | JStr _ | JArr _ => raise AttributeError
  end.

(** Lines 191-262: the body of [for addr in qrylist]. *)
Definition handleEvent_addr (event : Event) (addr : string) : M Flow :=
  let* stop := ask checkForStop in
  if stop then ret Exit else
  let* info := query addr in
  report event addr info.

(** Lines 182-188. *)
Definition qrylist (event : Event) : M (list string) :=
  if startswith (eventType event) "NETBLOCK_" then
    let* net := lift (IPNetwork_error (data event)) (IPNetwork (data event)) in
    let* _ := for_in set_results (addresses net) in
    ret (addresses net)
  else ret [data event].

(** Lines 182-262: the query list and the loop over it. *)
Definition lookups (event : Event) : M unit :=
  let* l := qrylist event in
  let* _ := for_each (handleEvent_addr event) l in
  ret tt.

Definition handleEvent (event : Event) : M unit :=
  let eventName := eventType event in
  let srcModuleName := module event in
  let eventData := data event in
  let* err := get errorState in
  if err then ret tt else
  let* _ := tell (LogDebug ("Received event, " +:+ eventName +:+ ", from " +:+ srcModuleName)) in
  if String.eqb (api_key opts) "" then
    let* _ := tell (LogError "You enabled sfp_virustotal but did not set an API key!") in
    set_errorState true
  else
  let* r := get results in
  if bool_decide (is_Some (r !! eventData)) then
    tell (LogDebug ("Skipping " +:+ eventData +:+ ", already checked."))
  else
  let* _ := set_results eventData in
  if startswith eventName "AFFILIATE" && negb (checkaffiliates opts) then ret tt else
  if String.eqb eventName "CO_HOSTED_SITE" && negb (checkcohosts opts) then ret tt else
  let* owner :=
    (if String.eqb eventName "NETBLOCK_OWNER" then
       if negb (netblocklookup opts) then ret Exit
       else
         let* net := lift (IPNetwork_error eventData) (IPNetwork eventData) in
         if prefixlen net <? maxnetblock opts then
           let* _ := tell (LogDebug ("Network size bigger than permitted: "
                                     +:+ pretty (prefixlen net) +:+ " > "
                                     +:+ pretty (maxnetblock opts))) in
           ret Exit
         else ret Next
     else ret Next) in
  match owner with Exit => ret tt | Next =>
  let* member :=
    (if String.eqb eventName "NETBLOCK_MEMBER" then
       if negb (subnetlookup opts) then ret Exit
       else
         let* net := lift (IPNetwork_error eventData) (IPNetwork eventData) in
         if prefixlen net <? maxsubnet opts then
           let* _ := tell (LogDebug ("Network size bigger than permitted: "
                                     +:+ pretty (prefixlen net) +:+ " > "
                                     +:+ pretty (maxsubnet opts))) in
           ret Exit
         else ret Next
     else ret Next) in
  match member with Exit => ret tt | Next => lookups event end end.

(** The engine hands events to the same plugin instance one after another;
    an exception escaping [handleEvent] ends that call only. *)
Fixpoint deliver (events : list Event) (m : Machine) : Machine * list Effect :=
  match events with
  | [] => (m, [])
  | e :: events' =>
      match handleEvent e m with
      | (_, m1, t1) =>
          match deliver events' m1 with
          | (m2, t2) => (m2, t1 ++ t2)
          end
      end
  end.

(** The three components of a finished call. *)
Definition outcome {A} (x : Outcome A * Machine * list Effect) : Outcome A := fst (fst x).
Definition final {A} (x : Outcome A * Machine * list Effect) : Machine := snd (fst x).
Definition trace {A} (x : Outcome A * Machine * list Effect) : list Effect := snd x.

(** The state after the addresses of a block were entered into [results]
    (line 186). *)
Definition mark (l : list string) (m : Machine) : Machine :=
  mkMachine (fold_left (fun r k => <[k := true]> r) l (results m)) (errorState m) (world m).

(** A finished call whose result is dropped. *)
Definition dropped {A} (x : Outcome A * Machine * list Effect)
  : Outcome unit * Machine * list Effect :=
  match x with
  | (Returned _, m, t) => (Returned tt, m, t)
  | (Raised e, m, t) => (Raised e, m, t)
  end.

(** A finished call, seen after the effects [pre] that came before it. *)
Definition after {A} (pre : list Effect) (x : Outcome A * Machine * list Effect)
  : Outcome A * Machine * list Effect :=
  (outcome x, final x, pre ++ trace x).

(** The state after the world moved on. *)
Definition at_world (m : Machine) (w : World) : Machine :=
  mkMachine (results m) (errorState m) w.

(** The URL [query] requests for a value. *)
Definition report_url (qry : string) : string :=
  (if validIP qry
   then "https://www.virustotal.com/vtapi/v2/ip-address/report?ip=" +:+ qry
   else "https://www.virustotal.com/vtapi/v2/domain/report?domain=" +:+ qry)
  +:+ "&apikey=" +:+ api_key opts.

End Plugin.

(** ** Reading a trace *)

(** A log line: neither a request to VirusTotal, nor a pause, nor an event. *)
Definition is_log (e : Effect) : bool :=
  match e with LogInfo _ | LogDebug _ | LogError _ => true | _ => false end.

(** The URLs requested, in order. *)
Fixpoint fetched (t : list Effect) : list string :=
  match t with
  | [] => []
  | Fetch url _ _ :: t' => url :: fetched t'
  | _ :: t' => fetched t'
  end.

(** The events handed to [notifyListeners], in order. *)
Fixpoint notified (t : list Effect) : list SpiderFootEvent :=
  match t with
  | [] => []
  | Notify e :: t' => e :: notified t'
  | _ :: t' => notified t'
  end.

(** The malicious-indicator events among them. *)
Definition malicious (t : list Effect) : list SpiderFootEvent :=
  List.filter (fun e => String.prefix "MALICIOUS_" (sfType e)) (notified t).

(** How often a URL was requested. *)
Definition times_fetched (url : string) (t : list Effect) : nat :=
  length (List.filter (String.eqb url) (fetched t)).

(** The table of the specification: the indicator type announced for each
    input type, with netblocks mapped to the netblock and subnet indicators
    that [producedEvents] lists. *)
Definition spec_indicator (eventName : string) : option string :=
  if String.eqb eventName "IP_ADDRESS" then Some "MALICIOUS_IPADDR"
  else if String.eqb eventName "AFFILIATE_IPADDR" then Some "MALICIOUS_AFFILIATE_IPADDR"
  else if String.eqb eventName "INTERNET_NAME" then Some "MALICIOUS_INTERNET_NAME"
  else if String.eqb eventName "AFFILIATE_INTERNET_NAME"
       then Some "MALICIOUS_AFFILIATE_INTERNET_NAME"
  else if String.eqb eventName "CO_HOSTED_SITE" then Some "MALICIOUS_COHOST"
  else if String.eqb eventName "NETBLOCK_OWNER" then Some "MALICIOUS_NETBLOCK"
  else if String.eqb eventName "NETBLOCK_MEMBER" then Some "MALICIOUS_SUBNET"
  else None.

(** ** Properties of calls *)

Definition is_LogError (e : Effect) : bool :=
  match e with LogError _ => true | _ => false end.

(** The event types of the sibling and subdomain loops. *)
Definition hostname_types : list string :=
  ["INTERNET_NAME_UNRESOLVED"; "INTERNET_NAME"; "DOMAIN_NAME"; "AFFILIATE_INTERNET_NAME"].

(** The event types [handleEvent] has a [SpiderFootEvent] call for. *)
Definition emitted_types : list string :=
  ["MALICIOUS_IPADDR"; "MALICIOUS_AFFILIATE_IPADDR"; "MALICIOUS_INTERNET_NAME";
   "MALICIOUS_AFFILIATE_INTERNET_NAME"; "MALICIOUS_COHOST"] ++ hostname_types.

Definition hostname (e : Effect) : Prop :=
  match e with Notify x => In (sfType x) hostname_types | _ => False end.

(** What handling the answer of a query may do: announce it in the log and
    notify events. *)
Definition reporting (e : Effect) : Prop :=
  match e with
  | LogInfo _ => True
  | Notify x => In (sfType x) emitted_types
  | _ => False
  end.

Definition announced (e : Effect) : Prop :=
  match e with Notify x => In (sfType x) emitted_types | _ => True end.

Section Properties.
Context `{host : Host}.

(** A call has the property [Q] of the state before it, the state after it
    and its trace. *)
Definition obeys (Q : Machine -> Machine -> list Effect -> Prop) {A} (c : M A) : Prop :=
  forall m, Q m (final (c m)) (trace (c m)).

(** Touches neither [results] nor [errorState]; all its effects are [P]. *)
Definition steady (P : Effect -> Prop) (m m' : Machine) (t : list Effect) : Prop :=
  results m' = results m /\ errorState m' = errorState m /\ Forall P t.

(** Leaves [results] alone, never clears [errorState], sets it whenever it
    logs an error, and notifies only events of the types in the code. *)
Definition careful (m m' : Machine) (t : list Effect) : Prop :=
  results m' = results m /\
  (errorState m = true \/ Exists (fun e => is_LogError e = true) t -> errorState m' = true) /\
  Forall announced t.

(** The same, with [results] only growing. *)
Definition growing (m m' : Machine) (t : list Effect) : Prop :=
  (forall k, is_Some (results m !! k) -> is_Some (results m' !! k)) /\
  (errorState m = true \/ Exists (fun e => is_LogError e = true) t -> errorState m' = true) /\
  Forall announced t.

End Properties.

(** ** Set-up *)

(** The values an option can hold. *)
Inductive optval : Type :=
| OStr (s : string)
| OBool (b : bool)
| OInt (z : Z)
| OList (l : list string).

(** The class attribute [opts] (lines 50-60). *)
Definition class_opts : gmap string optval :=
  list_to_map
    [("api_key", OStr ""); ("verify", OBool true); ("publicapi", OBool true);
     ("checkcohosts", OBool true); ("checkaffiliates", OBool true);
     ("netblocklookup", OBool true); ("maxnetblock", OInt 24);
     ("subnetlookup", OBool true); ("maxsubnet", OInt 24)].

(** The class attribute [optdescs] (lines 63-73): the options described. *)
Definition optdescs : list string :=
  ["api_key"; "publicapi"; "checkcohosts"; "checkaffiliates"; "netblocklookup";
   "maxnetblock"; "subnetlookup"; "maxsubnet"; "verify"].

Definition opt_str (o : gmap string optval) (k : string) : option string :=
  match o !! k with Some (OStr s) => Some s | _ => None end.

Definition opt_bool (o : gmap string optval) (k : string) : option bool :=
  match o !! k with Some (OBool b) => Some b | _ => None end.

Definition opt_int (o : gmap string optval) (k : string) : option Z :=
  match o !! k with Some (OInt z) => Some z | _ => None end.

Definition opt_list (o : gmap string optval) (k : string) : option (list string) :=
  match o !! k with Some (OList l) => Some l | _ => None end.

(** The options as [query] and [handleEvent] read them, [self.opts[k]] for
    each of the eleven keys; [None] when a key is missing or holds a value of
    another type than the default's. *)
Definition options (o : gmap string optval) : option Opts :=
  match opt_str o "api_key", opt_bool o "verify", opt_bool o "publicapi",
        opt_bool o "checkcohosts", opt_bool o "checkaffiliates",
        opt_bool o "netblocklookup" with
  | Some k, Some v, Some p, Some c, Some a, Some n =>
      match opt_int o "maxnetblock", opt_bool o "subnetlookup", opt_int o "maxsubnet",
            opt_int o "_fetchtimeout", opt_list o "_internettlds" with
      | Some mn, Some s, Some ms, Some ft, Some tl =>
          Some (mkOpts k v p c a n mn s ms ft tl)
      | _, _, _, _, _ => None
      end
  | _, _, _, _, _, _ => None
  end.

Section SetUp.
Context `{host : Host}.

(** [setup] (lines 81-89).  [self.opts] is the dictionary of the class, so
    the assignments of the loop change it in place; [self.results] is a new
    [tempStorage()]; [errorState] is not assigned.  The host handle [sfc]
    is the [Host] of the model. *)
Definition setup (userOpts : gmap string optval) (opts : gmap string optval) (m : Machine)
  : gmap string optval * Machine :=
  (fold_left (fun o kv => <[fst kv := snd kv]> o) (map_to_list userOpts) opts,
   mkMachine ∅ (errorState m) (world m)).

(** The values an event can have looked up: its own, or the addresses of
    its block (lines 182-188). *)
Definition values (event : Event) : list string :=
  if startswith (eventType event) "NETBLOCK_" then
    match IPNetwork (data event) with
    | Some net => addresses net
    | None => []
    end
  else [data event].

(** A call that returns, with a result that has the property [P]. *)
Definition returns {A} (P : A -> Prop) (c : M A) : Prop :=
  forall m, exists a, outcome (c m) = Returned a /\ P a.

End SetUp.

(** ** More to read from a trace *)

(** The seconds spent in [time.sleep]. *)
Fixpoint slept (t : list Effect) : Z :=
  match t with
  | [] => 0
  | Sleep n :: t' => n + slept t'
  | _ :: t' => slept t'
  end.

(** An event built by the plugin for the incoming [event]. *)
Definition sourced (event : Event) (e : Effect) : Prop :=
  match e with
  | Notify x => sfSource x = event /\ sfModule x = __name__
  | _ => True
  end.

(** The books of a trace balance: the pauses are the 15 seconds per request
    of the public API, every event built names the incoming event and this
    module, there are no more malicious-indicator events than requests, and
    no event at all without a request. *)
Definition accounted (opts : Opts) (event : Event) (t : list Effect) : Prop :=
  slept t = (if publicapi opts then 15 * Z.of_nat (length (fetched t)) else 0) /\
  Forall (sourced event) t /\
  (length (malicious t) <= length (fetched t))%nat /\
  (fetched t = [] -> notified t = []).

(** ** Answers the plugin can handle *)

Definition hashable (v : json) : bool :=
  match v with JArr _ | JObj _ => false | _ => true end.

Definition sized (v : json) : bool :=
  match py_len v with Some _ => true | None => false end.

Definition is_name (v : json) : bool :=
  match v with JStr _ => true | _ => false end.

(** Something to loop over whose elements are strings. *)
Definition listing (v : json) : bool :=
  match py_iter v with Some l => forallb is_name l | None => false end.

Definition field (check : json -> bool) (k : string) (info : list (string * json)) : bool :=
  match dict_get k info with Some v => check v | None => true end.

(** [null], or an object whose [detected_urls] has a length and whose
    [domain_siblings] and [subdomains] are listings, where present. *)
Definition well_formed (v : json) : bool :=
  match v with
  | JNull => true
  | JObj info =>
      field sized "detected_urls" info && field listing "domain_siblings" info
      && field listing "subdomains" info
  | _ => false
  end.

(** ** A small scan to run the plugin on

    A host whose network is a script: the n-th request of the scan gets the
    n-th entry ([None]: no content), whatever was asked.  The parser knows
    two documents, netaddr two blocks, the target is example.com, and the
    scan is never stopped. *)
Module Demo.

Definition quote : string := String (ascii_of_nat 34) EmptyString.

(** The document [{"detected_urls": ["http://bad.example/"]}]. *)
Definition flagged : string :=
  "{" +:+ quote +:+ "detected_urls" +:+ quote +:+ ": [" +:+ quote +:+
  "http://bad.example/" +:+ quote +:+ "]}".

(** The document [{}]. *)
Definition clean : string := "{}".

(** An HTML error page instead of a report. *)
Definition garbage : string := "<html>Service Unavailable</html>".

Definition is_digit_or_dot (c : ascii) : bool :=
  let n := nat_of_ascii c in
  ((48 <=? n) && (n <=? 57) || (n =? 46))%nat.

Fixpoint all_chars (p : ascii -> bool) (s : string) : bool :=
  match s with
  | EmptyString => true
  | String c s' => p c && all_chars p s'
  end.

(** The number of slashes of a block. *)
Fixpoint slashes (s : string) : nat :=
  match s with
  | EmptyString => 0%nat
  | String c s' => ((if (nat_of_ascii c =? 47)%nat then 1 else 0) + slashes s')%nat
  end.

#[export] Instance host : Host := {|
  World := list (option string);
  validIP := fun s => negb (String.eqb s "") && all_chars is_digit_or_dot s;
  fetchUrl := fun _ _ _ w =>
    match w with
    | [] => (None, [])
    | c :: w' => (c, w')
    end;
  json_loads := fun s =>
    if String.eqb s flagged
    then inl (JObj [("detected_urls", JArr [JStr "http://bad.example/"])])
    else if String.eqb s clean then inl (JObj [])
    else inr "Expecting value: line 1 column 1 (char 0)";
  checkForStop := fun w => (false, w);
  resolveHost := fun s w =>
    (match s with JStr n => String.eqb n "www.example.com" | _ => false end, w);
  isDomain := fun s _ =>
    match s with JStr n => String.eqb n "example.com" | _ => false end;
  matches := fun s =>
    match s with
    | JStr n => String.eqb n "example.com" || String.eqb n "www.example.com"
                || String.eqb n "old.example.com"
    | _ => false
    end;
  IPNetwork := fun s =>
    if String.eqb s "10.0.0.0/31" then Some (mkNetwork 31 ["10.0.0.0"; "10.0.0.1"])
    else if String.eqb s "10.0.0.1/32" then Some (mkNetwork 32 ["10.0.0.1"])
    else None;
  IPNetwork_error := fun s =>
    if (1 <? slashes s)%nat then ValueError else AddrFormatError
|}.

(** The default options with an API key. *)
Definition opts : Opts :=
  {| api_key := "k"; verify := true; publicapi := true; checkcohosts := true;
     checkaffiliates := true; netblocklookup := true; maxnetblock := 24;
     subnetlookup := true; maxsubnet := 24;
     _fetchtimeout := 5; _internettlds := [] |}.

(** The same, looking up single addresses only. *)
Definition strict_opts : Opts :=
  {| api_key := "k"; verify := true; publicapi := true; checkcohosts := true;
     checkaffiliates := true; netblocklookup := true; maxnetblock := 32;
     subnetlookup := true; maxsubnet := 32;
     _fetchtimeout := 5; _internettlds := [] |}.

(** A fresh plugin instance, before its first event, with a scripted network. *)
Definition start (script : list (option string)) : Machine :=
  mkMachine ∅ false script.

Definition address : Event := mkEvent "IP_ADDRESS" "sfp_dnsresolve" "10.0.0.1".
Definition block : Event := mkEvent "NETBLOCK_OWNER" "sfp_ripe" "10.0.0.0/31".
Definition name : Event := mkEvent "INTERNET_NAME" "sfp_dnsresolve" "www.example.com".

(** The default options with an API key, affiliates and co-hosts left out. *)
Definition narrow_opts : Opts :=
  {| api_key := "k"; verify := true; publicapi := true; checkcohosts := false;
     checkaffiliates := false; netblocklookup := true; maxnetblock := 24;
     subnetlookup := true; maxsubnet := 24;
     _fetchtimeout := 5; _internettlds := [] |}.

Definition affiliate : Event := mkEvent "AFFILIATE_IPADDR" "sfp_dnsresolve" "10.0.0.1".

(** What the engine hands to [setup] for a user who entered a key. *)
Definition userOpts : gmap string optval :=
  list_to_map [("api_key", OStr "k"); ("_fetchtimeout", OInt 5); ("_internettlds", OList [])].

(** The same for a user who did not. *)
Definition keyless : gmap string optval :=
  list_to_map [("_fetchtimeout", OInt 5); ("_internettlds", OList [])].

End Demo.

(** The host of the small scan with another parser, for answers that are
    JSON but not reports: [null], [[]] and [{"detected_urls": null}]. *)
Module Odd.

Definition unsized : string :=
  "{" +:+ Demo.quote +:+ "detected_urls" +:+ Demo.quote +:+ ": null}".

Definition host : Host := {|
  World := list (option string);
  validIP := @validIP Demo.host;
  fetchUrl := @fetchUrl Demo.host;
  json_loads := fun s =>
    if String.eqb s "null" then inl JNull
    else if String.eqb s "[]" then inl (JArr [])
    else if String.eqb s unsized then inl (JObj [("detected_urls", JNull)])
    else inr "Expecting value: line 1 column 1 (char 0)";
  checkForStop := @checkForStop Demo.host;
  resolveHost := @resolveHost Demo.host;
  isDomain := @isDomain Demo.host;
  matches := @matches Demo.host;
  IPNetwork := @IPNetwork Demo.host;
  IPNetwork_error := @IPNetwork_error Demo.host
|}.

Definition start (script : list (option string)) : @Machine host :=
  @mkMachine host ∅ false script.

End Odd.

(** The host of the small scan with a parser that also knows a report with
    two siblings, one on the target and one elsewhere:
    [{"domain_siblings": ["www.example.com", "mail.example.org"]}]. *)
Module Kin.

Definition siblings : string :=
  "{" +:+ Demo.quote +:+ "domain_siblings" +:+ Demo.quote +:+ ": [" +:+
  Demo.quote +:+ "www.example.com" +:+ Demo.quote +:+ ", " +:+
  Demo.quote +:+ "mail.example.org" +:+ Demo.quote +:+ "]}".

Definition host : Host := {|
  World := list (option string);
  validIP := @validIP Demo.host;
  fetchUrl := @fetchUrl Demo.host;
  json_loads := fun s =>
    if String.eqb s siblings
    then inl (JObj [("domain_siblings",
                     JArr [JStr "www.example.com"; JStr "mail.example.org"])])
    else @json_loads Demo.host s;
  checkForStop := @checkForStop Demo.host;
  resolveHost := @resolveHost Demo.host;
  isDomain := @isDomain Demo.host;
  matches := @matches Demo.host;
  IPNetwork := @IPNetwork Demo.host;
  IPNetwork_error := @IPNetwork_error Demo.host
|}.

Definition start (script : list (option string)) : @Machine host :=
  @mkMachine host ∅ false script.


End Kin.

(** ** Composition of calls *)

Section Calls.
Context `{host : Host}.
Variable opts : Opts.

Notation "'let*' x ':=' c 'in' k" := (bind c (fun x => k))
  (at level 10, x name, c at level 200, k at level 200).

Lemma bind_Returned {A B} (c : M A) (k : A -> M B) m a m1 t1 :
  c m = (Returned a, m1, t1) ->
  bind c k m = (outcome (k a m1), final (k a m1), t1 ++ trace (k a m1)).
Proof.
  intros E. unfold bind. rewrite E.
  destruct (k a m1) as [[r m2] t2]. reflexivity.
Qed.

(** A property [Q m m' t] of the state before, the state after and the
    trace of a call that holds of doing nothing and is closed under
    sequencing holds of every call built from calls that have it. *)
Section Obeys.
Variable Q : Machine -> Machine -> list Effect -> Prop.
Local Abbreviation obeys := (obeys Q).
Hypothesis Q_nil : forall m, Q m m [].
Hypothesis Q_app : forall m m1 m2 t1 t2, Q m m1 t1 -> Q m1 m2 t2 -> Q m m2 (t1 ++ t2).

Lemma obeys_ret {A} (a : A) : obeys (ret a).
Proof. intros m. apply Q_nil. Qed.

Lemma obeys_raise {A} (e : exn) : obeys (@raise _ A e).
Proof. intros m. apply Q_nil. Qed.

Lemma obeys_get {A} (f : Machine -> A) : obeys (get f).
Proof. intros m. apply Q_nil. Qed.

Lemma obeys_lift {A} (e : exn) (o : option A) : obeys (lift e o).
Proof. destruct o; [apply obeys_ret | apply obeys_raise]. Qed.

Lemma obeys_bind {A B} (c : M A) (k : A -> M B) :
  obeys c -> (forall a, obeys (k a)) -> obeys (bind c k).
Proof.
  intros Hc Hk m. specialize (Hc m). unfold bind.
  destruct (c m) as [[[a|e] m1] t1]; cbn in *; [|exact Hc].
  specialize (Hk a m1). destruct (k a m1) as [[r m2] t2]; cbn in *.
  eapply Q_app; eassumption.
Qed.

Lemma obeys_for_in {A} (body : A -> M unit) (l : list A) :
  (forall x, obeys (body x)) -> obeys (for_in body l).
Proof.
  intros Hb. induction l as [|x l IH]; cbn [for_in].
  - apply obeys_ret.
  - apply obeys_bind; [apply Hb | intros _; exact IH].
Qed.

Lemma obeys_for_each {A} (body : A -> M Flow) (l : list A) :
  (forall x, obeys (body x)) -> obeys (for_each body l).
Proof.
  intros Hb. induction l as [|x l IH]; cbn [for_each].
  - apply obeys_ret.
  - apply obeys_bind; [apply Hb | intros [|]; [exact IH | apply obeys_ret]].
Qed.

End Obeys.

(** *** The request *)

(** What [query] does, case by case. *)
Lemma query_run qry m :
  query opts qry m =
  match fetchUrl (report_url opts qry) (_fetchtimeout opts) "SpiderFoot" (world m) with
  | (res, w) =>
      let pre := Fetch (report_url opts qry) (_fetchtimeout opts) "SpiderFoot"
                 :: (if publicapi opts then [Sleep 15] else []) in
      match res with
      | None =>
          (Returned JNull, at_world m w,
           pre ++ [LogInfo ("No VirusTotal info found for " +:+ qry)])
      | Some content =>
          match json_loads content with
          | inr e =>
              (Returned JNull, mkMachine (results m) true w,
               pre ++ [LogError ("Error processing JSON response from VirusTotal: " +:+ e)])
          | inl v => (Returned v, at_world m w, pre)
          end
      end
  end.
Proof.
  unfold query, report_url, bind, fetch, tell, ret, set_errorState, at_world.
  destruct (validIP qry);
    (destruct (fetchUrl _ _ _ (world m)) as [[content|] w]; cbn;
     [destruct (json_loads content) as [v|e]|];
     destruct (publicapi opts); reflexivity).
Qed.

(** *** The two inner loops *)

Lemma steady_nil P m : steady P m m [].
Proof. repeat split; constructor. Qed.

Lemma steady_app P m m1 m2 t1 t2 :
  steady P m m1 t1 -> steady P m1 m2 t2 -> steady P m m2 (t1 ++ t2).
Proof.
  intros (R1 & E1 & F1) (R2 & E2 & F2). repeat split; try congruence.
  apply Forall_app; auto.
Qed.

Lemma steady_ask P {A} (f : World -> A * World) : obeys (steady P) (ask f).
Proof.
  intros m. unfold ask. destruct (f (world m)) as [a w]. repeat split; constructor.
Qed.

Lemma steady_tell (P : Effect -> Prop) e : P e -> obeys (steady P) (tell e).
Proof. intros H m. repeat split. repeat constructor; exact H. Qed.

Lemma steady_impl (P P' : Effect -> Prop) m m' t :
  (forall e, P e -> P' e) -> steady P m m' t -> steady P' m m' t.
Proof.
  intros H (R & E & F). repeat split; auto. eapply Forall_impl; eauto.
Qed.

Ltac steady_step :=
  first
    [ apply obeys_bind; [exact (steady_app _) | | intros ?]
    | apply obeys_ret; exact (steady_nil _)
    | apply obeys_raise; exact (steady_nil _)
    | apply obeys_get; exact (steady_nil _)
    | apply obeys_lift; exact (steady_nil _)
    | apply steady_ask
    | apply steady_tell; cbn; tauto
    | match goal with
      | |- obeys _ (if ?b then _ else _) => destruct b
      | |- obeys _ (match ?x with _ => _ end) => destruct x
      end ].

Lemma sibling_steady event s : obeys (steady hostname) (sibling opts event s).
Proof. unfold sibling, not_in_results, notifyListeners. repeat steady_step. Qed.

Lemma subdomain_steady event n : obeys (steady hostname) (subdomain opts event n).
Proof. unfold subdomain, not_in_results, notifyListeners. repeat steady_step. Qed.

Lemma domain_siblings_steady event info :
  obeys (steady hostname) (domain_siblings opts event info).
Proof.
  unfold domain_siblings. repeat steady_step.
  apply obeys_for_in; [exact (steady_nil _) | exact (steady_app _) | apply sibling_steady].
Qed.

Lemma subdomains_steady event info :
  obeys (steady hostname) (subdomains opts event info).
Proof.
  unfold subdomains. repeat steady_step.
  apply obeys_for_in; [exact (steady_nil _) | exact (steady_app _) | apply subdomain_steady].
Qed.

(** *** The loop over the query list *)

Lemma careful_nil m : careful m m [].
Proof.
  repeat split; [|constructor]. intros [E|E]; [exact E | inversion E].
Qed.

Lemma careful_app m m1 m2 t1 t2 :
  careful m m1 t1 -> careful m1 m2 t2 -> careful m m2 (t1 ++ t2).
Proof.
  intros (R1 & E1 & F1) (R2 & E2 & F2). repeat split; try congruence.
  - intros [E|E]; [auto|]. apply Exists_app in E as [E|E]; auto.
  - apply Forall_app; auto.
Qed.

Lemma evt_infotype_emitted eventName evt infotype :
  evt_infotype eventName = Some (evt, infotype) ->
  In evt emitted_types /\ String.prefix "MALICIOUS_" evt = true.
Proof.
  unfold evt_infotype.
  destruct (String.eqb eventName "CO_HOSTED_SITE");
    [|destruct (String.eqb eventName "AFFILIATE_INTERNET_NAME");
      [|destruct (String.eqb eventName "INTERNET_NAME");
        [|destruct (String.eqb eventName "AFFILIATE_IPADDR");
          [|destruct (String.eqb eventName "IP_ADDRESS" || startswith eventName "NETBLOCK_")]]]];
    intros E; inversion E; subst; cbn; tauto.
Qed.

(** What [detected] does, case by case. *)
Lemma detected_run event addr n m :
  detected event addr n m =
  if (0 <? n)%nat then
    match evt_infotype (eventType event) with
    | None => (Raised UnboundLocalError, m,
               [LogInfo ("Found VirusTotal URL data for " +:+ addr)])
    | Some (evt, infotype) =>
        (Returned tt, m,
         [LogInfo ("Found VirusTotal URL data for " +:+ addr);
          Notify (mkSpiderFootEvent evt
                    (JStr ("VirusTotal [" +:+ addr +:+ "]" +:+ newline +:+
                           "<SFURL>https://www.virustotal.com/en/" +:+ infotype +:+ "/" +:+
                           addr +:+ "/information/</SFURL>"))
                    __name__ event)])
    end
  else (Returned tt, m, []).
Proof.
  unfold detected. destruct (0 <? n)%nat; [|reflexivity].
  unfold bind, tell, raise, notifyListeners.
  destruct (evt_infotype (eventType event)) as [[evt infotype]|]; reflexivity.
Qed.

Lemma careful_intro m m' t :
  results m' = results m ->
  (errorState m = true -> errorState m' = true) ->
  (existsb is_LogError t = true -> errorState m' = true) ->
  Forall announced t ->
  careful m m' t.
Proof.
  intros R E L F. repeat split; auto.
  intros [H|H]; [auto|]. apply L, existsb_exists.
  apply Exists_exists in H as (e & I & Le). exists e. split; [|exact Le].
  now apply list_elem_of_In.
Qed.

Ltac announce :=
  repeat match goal with
         | |- Forall _ [] => constructor
         | |- Forall _ (_ :: _) => constructor; [first [exact Logic.I | assumption]|]
         end.

Lemma hostname_reporting e : hostname e -> reporting e.
Proof. destruct e; cbn; tauto. Qed.

Lemma reporting_announced e : reporting e -> announced e.
Proof. destruct e; cbn; tauto. Qed.

Lemma detected_steady event addr n : obeys (steady reporting) (detected event addr n).
Proof.
  intros m. rewrite detected_run. destruct (0 <? n)%nat; [|apply steady_nil].
  destruct (evt_infotype (eventType event)) as [[evt infotype]|] eqn:E;
    unfold final, trace; cbn [fst snd].
  - apply evt_infotype_emitted in E as [I _].
    split; [reflexivity | split; [reflexivity|]].
    constructor; [exact Logic.I | constructor; [exact I | constructor]].
  - split; [reflexivity | split; [reflexivity|]].
    constructor; [exact Logic.I | constructor].
Qed.

Lemma query_careful qry : obeys careful (query opts qry).
Proof.
  intros m. rewrite query_run.
  destruct (fetchUrl _ _ _ (world m)) as [[content|] w];
    [destruct (json_loads content) as [v|e]|];
    unfold final, trace; cbn [fst snd];
    (apply careful_intro; cbn [results errorState at_world]; auto;
     destruct (publicapi opts); cbn; solve [discriminate | announce]).
Qed.

Lemma careful_ask {A} (f : World -> A * World) : obeys careful (ask f).
Proof.
  intros m. unfold ask. destruct (f (world m)) as [a w]. apply (careful_nil m).
Qed.

Lemma report_steady event addr info : obeys (steady reporting) (report opts event addr info).
Proof.
  unfold report. destruct info;
    try (apply obeys_raise; exact (steady_nil _));
    try (apply obeys_ret; exact (steady_nil _)).
  apply obeys_bind; [exact (steady_app _) | apply obeys_lift; exact (steady_nil _) | intros n].
  apply obeys_bind; [exact (steady_app _) | apply detected_steady | intros _].
  apply obeys_bind; [exact (steady_app _) | | intros _].
  { intros m. eapply steady_impl; [apply hostname_reporting | apply domain_siblings_steady]. }
  apply obeys_bind;
    [exact (steady_app _) | | intros _; apply obeys_ret; exact (steady_nil _)].
  intros m. eapply steady_impl; [apply hostname_reporting | apply subdomains_steady].
Qed.

Lemma reporting_not_LogError t :
  Forall reporting t -> ~ Exists (fun e => is_LogError e = true) t.
Proof.
  intros F E. apply Exists_exists in E as (e & I & L).
  rewrite Forall_forall in F. specialize (F e I). now destruct e.
Qed.

Lemma report_careful event addr info : obeys careful (report opts event addr info).
Proof.
  intros m. destruct (report_steady event addr info m) as (R & E & F).
  repeat split; auto.
  - intros [H|H]; [congruence|]. now apply reporting_not_LogError in H.
  - eapply Forall_impl; [exact F | apply reporting_announced].
Qed.

Lemma handleEvent_addr_careful event addr :
  obeys careful (handleEvent_addr opts event addr).
Proof.
  unfold handleEvent_addr.
  apply obeys_bind; [exact careful_app | apply careful_ask | intros stop].
  destruct stop; [apply obeys_ret; exact careful_nil|].
  apply obeys_bind; [exact careful_app | apply query_careful | intros info].
  apply report_careful.
Qed.

Lemma for_each_careful event l :
  obeys careful (for_each (handleEvent_addr opts event) l).
Proof.
  apply obeys_for_each; [exact careful_nil | exact careful_app |].
  apply handleEvent_addr_careful.
Qed.

(** *** A whole event *)

Lemma growing_nil m : growing m m [].
Proof.
  split; [auto | split; [|constructor]]. intros [E|E]; [exact E | inversion E].
Qed.

Lemma growing_app m m1 m2 t1 t2 :
  growing m m1 t1 -> growing m1 m2 t2 -> growing m m2 (t1 ++ t2).
Proof.
  intros (R1 & E1 & F1) (R2 & E2 & F2). split; [auto | split].
  - intros [E|E]; [auto|]. apply Exists_app in E as [E|E]; auto.
  - apply Forall_app; auto.
Qed.

Lemma careful_growing m m' t : careful m m' t -> growing m m' t.
Proof. intros (R & E & F). split; [|split; auto]. intros k. now rewrite R. Qed.

Lemma growing_intro m m' t :
  (forall k, is_Some (results m !! k) -> is_Some (results m' !! k)) ->
  (errorState m = true -> errorState m' = true) ->
  (existsb is_LogError t = true -> errorState m' = true) ->
  Forall announced t ->
  growing m m' t.
Proof.
  intros R E L F. split; [exact R | split; [|exact F]].
  intros [H|H]; [auto|]. apply L, existsb_exists.
  apply Exists_exists in H as (e & I & Le). exists e. split; [|exact Le].
  now apply list_elem_of_In.
Qed.

Lemma growing_set_results k : obeys growing (set_results k).
Proof.
  intros m. apply growing_intro; [|auto | discriminate | cbn; announce].
  intros k' [v Hv]. cbn. destruct (decide (k = k')) as [->|Hne].
  - rewrite lookup_insert_eq. eauto.
  - rewrite lookup_insert_ne by exact Hne. eauto.
Qed.

Lemma growing_debug msg : obeys growing (tell (LogDebug msg)).
Proof. intros m. apply growing_intro; [auto | auto | discriminate | cbn; announce]. Qed.

Lemma growing_api_key msg :
  obeys growing (bind (tell (LogError msg)) (fun _ => set_errorState true)).
Proof. intros m. apply growing_intro; [auto | auto | auto | cbn; announce]. Qed.

Lemma lookups_growing event : obeys growing (lookups opts event).
Proof.
  unfold lookups, qrylist.
  apply obeys_bind; [exact growing_app | | intros l].
  - destruct (startswith _ _); [|apply obeys_ret; exact growing_nil].
    apply obeys_bind; [exact growing_app | apply obeys_lift; exact growing_nil | intros net].
    apply obeys_bind; [exact growing_app | | intros _; apply obeys_ret; exact growing_nil].
    apply obeys_for_in; [exact growing_nil | exact growing_app | apply growing_set_results].
  - apply obeys_bind; [exact growing_app | | intros _; apply obeys_ret; exact growing_nil].
    intros m. apply careful_growing, for_each_careful.
Qed.

Ltac growing_step :=
  first
    [ apply growing_api_key
    | apply growing_debug
    | apply growing_set_results
    | apply lookups_growing
    | apply obeys_ret; exact growing_nil
    | apply obeys_get; exact growing_nil
    | apply obeys_lift; exact growing_nil
    | apply obeys_bind; [exact growing_app | | intros ?]
    | match goal with
      | |- obeys _ (if ?b then _ else _) => destruct b
      | |- obeys _ (match ?x with _ => _ end) => destruct x
      end ].

Lemma handleEvent_growing event : obeys growing (handleEvent opts event).
Proof. unfold handleEvent. repeat growing_step. Qed.

Lemma deliver_growing events m :
  growing m (fst (deliver opts events m)) (snd (deliver opts events m)).
Proof.
  revert m. induction events as [|e events IH]; intros m; cbn [deliver].
  - apply growing_nil.
  - pose proof (handleEvent_growing e m) as H.
    destruct (handleEvent opts e m) as [[r m1] t1]. specialize (IH m1).
    destruct (deliver opts events m1) as [m2 t2]. cbn in *.
    eapply growing_app; eassumption.
Qed.

(** *** Reading traces *)

(** Every type the code builds an event of is declared in [producedEvents];
    two declared types are never built. *)
Lemma emitted_types_produced :
  incl emitted_types producedEvents /\
  In "MALICIOUS_NETBLOCK" producedEvents /\ ~ In "MALICIOUS_NETBLOCK" emitted_types /\
  In "MALICIOUS_SUBNET" producedEvents /\ ~ In "MALICIOUS_SUBNET" emitted_types.
Proof.
  split; [|repeat split]; try (cbn; tauto).
  - intros x H. cbn in H. cbn.
    repeat (destruct H as [<-|H]; [tauto|]). destruct H.
  - cbn. intros H. repeat (destruct H as [H|H]; [discriminate H|]). exact H.
  - cbn. intros H. repeat (destruct H as [H|H]; [discriminate H|]). exact H.
Qed.

Lemma fetched_app t1 t2 : fetched (t1 ++ t2) = fetched t1 ++ fetched t2.
Proof.
  induction t1 as [|e t1 IH]; [reflexivity|]. destruct e; cbn; now rewrite IH.
Qed.

Lemma notified_app t1 t2 : notified (t1 ++ t2) = notified t1 ++ notified t2.
Proof.
  induction t1 as [|e t1 IH]; [reflexivity|]. destruct e; cbn; now rewrite IH.
Qed.

Lemma malicious_app t1 t2 : malicious (t1 ++ t2) = malicious t1 ++ malicious t2.
Proof. unfold malicious. now rewrite notified_app, List.filter_app. Qed.

Lemma reporting_fetched t : Forall reporting t -> fetched t = [].
Proof.
  induction 1 as [|e t He _ IH]; [reflexivity|]. destruct e; cbn in *; tauto.
Qed.

Lemma hostname_malicious t : Forall hostname t -> malicious t = [].
Proof.
  unfold malicious. induction 1 as [|e t He _ IH]; [reflexivity|].
  destruct e as [| | | | |x]; cbn in He; try tauto. cbn.
  destruct He as [<-|[<-|[<-|[<-|[]]]]]; exact IH.
Qed.

Lemma announced_notified t e :
  Forall announced t -> In e (notified t) -> In (sfType e) emitted_types.
Proof.
  induction 1 as [|x t Hx _ IH]; [intros []|].
  destruct x; cbn [notified]; auto. intros [<-|H]; auto.
Qed.

(** *** The paths through [handleEvent] *)

Ltac run_with tac :=
  repeat first
    [ progress unfold bind, get, tell, ret, raise, lift, set_results, set_errorState,
        final, outcome, trace, after, dropped
    | progress cbn beta iota delta [fst snd for_each for_in negb andb orb]
    | tac ].

Lemma handleEvent_error event m :
  errorState m = true -> handleEvent opts event m = (Returned tt, m, []).
Proof.
  intros E. unfold handleEvent. run_with ltac:(try rewrite E). reflexivity.
Qed.

Lemma deliver_error events m :
  errorState m = true -> deliver opts events m = (m, []).
Proof.
  intros E. induction events as [|e events IH]; [reflexivity|].
  cbn [deliver]. rewrite (handleEvent_error e m E), IH. reflexivity.
Qed.

Lemma handleEvent_api_key event m :
  errorState m = false -> api_key opts = "" ->
  handleEvent opts event m =
  (Returned tt, mkMachine (results m) true (world m),
   [LogDebug ("Received event, " +:+ eventType event +:+ ", from " +:+ module event);
    LogError "You enabled sfp_virustotal but did not set an API key!"]).
Proof.
  intros E K. unfold handleEvent.
  run_with ltac:(first [rewrite E | rewrite K]). reflexivity.
Qed.

Lemma handleEvent_seen event m :
  errorState m = false -> api_key opts <> "" -> is_Some (results m !! data event) ->
  handleEvent opts event m =
  (Returned tt, m,
   [LogDebug ("Received event, " +:+ eventType event +:+ ", from " +:+ module event);
    LogDebug ("Skipping " +:+ data event +:+ ", already checked.")]).
Proof.
  intros E K S. apply String.eqb_neq in K.
  assert (S' : bool_decide (is_Some (results m !! data event)) = true)
    by (apply bool_decide_eq_true_2; exact S).
  unfold handleEvent. run_with ltac:(first [rewrite E | rewrite K | rewrite S']).
  reflexivity.
Qed.

(** An event whose value is in [results] causes no request and no event,
    whatever the rest of the state. *)
Lemma seen_skipped event m :
  is_Some (results m !! data event) ->
  let r := handleEvent opts event m in
  outcome r = Returned tt /\ final r = (if errorState m then m else
                                        if String.eqb (api_key opts) ""
                                        then mkMachine (results m) true (world m) else m) /\
  fetched (trace r) = [] /\ notified (trace r) = [].
Proof.
  intros S. cbn zeta. destruct (errorState m) eqn:E.
  - rewrite handleEvent_error by exact E. repeat split.
  - destruct (String.eqb_spec (api_key opts) "") as [K|K].
    + rewrite handleEvent_api_key by assumption. repeat split.
    + rewrite handleEvent_seen by assumption. repeat split.
Qed.

Lemma mark_cons k l m :
  mark (k :: l) m = mark l (mkMachine (<[k := true]> (results m)) (errorState m) (world m)).
Proof. reflexivity. Qed.

Lemma mark_Some l m k :
  is_Some (results m !! k) \/ In k l -> is_Some (results (mark l m) !! k).
Proof.
  revert m. induction l as [|x l IH]; intros m.
  - intros [H|[]]. exact H.
  - intros H. rewrite mark_cons. apply IH. cbn [results].
    destruct (decide (x = k)) as [->|Hne].
    + left. rewrite lookup_insert_eq. eauto.
    + rewrite lookup_insert_ne by exact Hne. destruct H as [H|[H|H]]; auto. contradiction.
Qed.

Lemma for_in_set_results l m : for_in set_results l m = (Returned tt, mark l m, []).
Proof.
  revert m. induction l as [|x l IH]; intros m.
  - destruct m. reflexivity.
  - cbn [for_in]. unfold bind at 1. cbn [set_results]. rewrite IH. reflexivity.
Qed.

Lemma lookups_single event m :
  startswith (eventType event) "NETBLOCK_" = false ->
  lookups opts event m = dropped (handleEvent_addr opts event (data event) m).
Proof.
  intros N. unfold lookups, qrylist. rewrite N.
  run_with fail.
  destruct (handleEvent_addr opts event (data event) m) as [[[[|]|e] m1] t1];
    cbn; now rewrite ?app_nil_r.
Qed.

Lemma lookups_block event net m :
  startswith (eventType event) "NETBLOCK_" = true ->
  IPNetwork (data event) = Some net ->
  lookups opts event m =
  dropped (for_each (handleEvent_addr opts event) (addresses net) (mark (addresses net) m)).
Proof.
  intros N I. unfold lookups, qrylist. rewrite N, I.
  run_with ltac:(rewrite for_in_set_results).
  destruct (for_each _ _ _) as [[[f|e] m1] t1]; cbn; now rewrite ?app_nil_r.
Qed.

Ltac use_equation :=
  idtac;
  match goal with
  | H : _ = _ |- _ => progress rewrite H
  end.

(** Past the guards of lines 139-180. *)
Lemma handleEvent_passes event m :
  errorState m = false -> api_key opts <> "" -> results m !! data event = None ->
  startswith (eventType event) "AFFILIATE" && negb (checkaffiliates opts) = false ->
  String.eqb (eventType event) "CO_HOSTED_SITE" && negb (checkcohosts opts) = false ->
  (String.eqb (eventType event) "NETBLOCK_OWNER" = false \/
   netblocklookup opts = true /\
   exists net, IPNetwork (data event) = Some net /\ maxnetblock opts <= prefixlen net) ->
  (String.eqb (eventType event) "NETBLOCK_MEMBER" = false \/
   subnetlookup opts = true /\
   exists net, IPNetwork (data event) = Some net /\ maxsubnet opts <= prefixlen net) ->
  handleEvent opts event m =
  after [LogDebug ("Received event, " +:+ eventType event +:+ ", from " +:+ module event)]
    (lookups opts event (mark [data event] m)).
Proof.
  intros E K S A C O N. apply String.eqb_neq in K.
  assert (S' : bool_decide (is_Some (results m !! data event)) = false).
  { apply bool_decide_eq_false_2. rewrite S. intros [? ?]; discriminate. }
  clear S. unfold mark. cbn [fold_left].
  unfold handleEvent.
  destruct O as [O|(O1 & net & O2 & O3)]; [|apply Z.ltb_ge in O3];
    (destruct N as [N|(N1 & net' & N2 & N3)]; [|apply Z.ltb_ge in N3]);
    (destruct (String.eqb (eventType event) "NETBLOCK_OWNER") eqn:TO;
     destruct (String.eqb (eventType event) "NETBLOCK_MEMBER") eqn:TM;
     try discriminate;
     try (assert (net' = net) by congruence; subst net'; clear N2);
     try (apply String.eqb_eq in TO; apply String.eqb_eq in TM; rewrite TO in TM;
          discriminate TM);
     run_with use_equation;
     destruct (lookups opts event _) as [[r m2] t2]; reflexivity).
Qed.

(** What the guards make of the two block types; [d] is the first log line. *)
Ltac block_facts T :=
  let event := match type of T with eventType ?e = _ => e end in
  let name := match type of T with _ = ?n => n end in
  let owner := eval vm_compute in (String.eqb name "NETBLOCK_OWNER") in
  let member := eval vm_compute in (String.eqb name "NETBLOCK_MEMBER") in
  assert (startswith (eventType event) "AFFILIATE" = false) by (rewrite T; reflexivity);
  assert (String.eqb (eventType event) "CO_HOSTED_SITE" = false) by (rewrite T; reflexivity);
  assert (String.eqb (eventType event) "NETBLOCK_OWNER" = owner) by (rewrite T; reflexivity);
  assert (String.eqb (eventType event) "NETBLOCK_MEMBER" = member)
    by (rewrite T; reflexivity);
  assert (startswith (eventType event) "NETBLOCK_" = true) by (rewrite T; reflexivity).

Lemma handleEvent_owner event m net :
  eventType event = "NETBLOCK_OWNER" ->
  errorState m = false -> api_key opts <> "" -> results m !! data event = None ->
  netblocklookup opts = true ->
  IPNetwork (data event) = Some net ->
  maxnetblock opts <= prefixlen net ->
  handleEvent opts event m =
  after [LogDebug ("Received event, " +:+ eventType event +:+ ", from " +:+ module event)]
    (dropped (for_each (handleEvent_addr opts event) (addresses net)
                (mark (data event :: addresses net) m))).
Proof.
  intros T E K S L I P. block_facts T.
  rewrite handleEvent_passes; try assumption;
    try (rewrite (lookups_block event net) by assumption; reflexivity);
    try (use_equation; reflexivity);
    solve [right; eauto | left; assumption].
Qed.

Lemma handleEvent_member event m net :
  eventType event = "NETBLOCK_MEMBER" ->
  errorState m = false -> api_key opts <> "" -> results m !! data event = None ->
  subnetlookup opts = true ->
  IPNetwork (data event) = Some net ->
  maxsubnet opts <= prefixlen net ->
  handleEvent opts event m =
  after [LogDebug ("Received event, " +:+ eventType event +:+ ", from " +:+ module event)]
    (dropped (for_each (handleEvent_addr opts event) (addresses net)
                (mark (data event :: addresses net) m))).
Proof.
  intros T E K S L I P. block_facts T.
  rewrite handleEvent_passes; try assumption;
    try (rewrite (lookups_block event net) by assumption; reflexivity);
    try (use_equation; reflexivity);
    solve [right; eauto | left; assumption].
Qed.

Ltac run_block T :=
  block_facts T; unfold handleEvent, mark; run_with use_equation; reflexivity.

Lemma handleEvent_owner_off event m :
  eventType event = "NETBLOCK_OWNER" ->
  errorState m = false -> api_key opts <> "" -> results m !! data event = None ->
  netblocklookup opts = false ->
  handleEvent opts event m =
  (Returned tt, mark [data event] m,
   [LogDebug ("Received event, " +:+ eventType event +:+ ", from " +:+ module event)]).
Proof.
  intros T E K S L. apply String.eqb_neq in K.
  assert (S' : bool_decide (is_Some (results m !! data event)) = false).
  { apply bool_decide_eq_false_2. rewrite S. intros [? ?]; discriminate. }
  clear S. run_block T.
Qed.

Lemma handleEvent_owner_rejected event m net :
  eventType event = "NETBLOCK_OWNER" ->
  errorState m = false -> api_key opts <> "" -> results m !! data event = None ->
  netblocklookup opts = true ->
  IPNetwork (data event) = Some net ->
  prefixlen net < maxnetblock opts ->
  handleEvent opts event m =
  (Returned tt, mark [data event] m,
   [LogDebug ("Received event, " +:+ eventType event +:+ ", from " +:+ module event);
    LogDebug ("Network size bigger than permitted: " +:+ pretty (prefixlen net) +:+ " > "
              +:+ pretty (maxnetblock opts))]).
Proof.
  intros T E K S L I P. apply String.eqb_neq in K. apply Z.ltb_lt in P.
  assert (S' : bool_decide (is_Some (results m !! data event)) = false).
  { apply bool_decide_eq_false_2. rewrite S. intros [? ?]; discriminate. }
  clear S. run_block T.
Qed.

Lemma handleEvent_member_off event m :
  eventType event = "NETBLOCK_MEMBER" ->
  errorState m = false -> api_key opts <> "" -> results m !! data event = None ->
  subnetlookup opts = false ->
  handleEvent opts event m =
  (Returned tt, mark [data event] m,
   [LogDebug ("Received event, " +:+ eventType event +:+ ", from " +:+ module event)]).
Proof.
  intros T E K S L. apply String.eqb_neq in K.
  assert (S' : bool_decide (is_Some (results m !! data event)) = false).
  { apply bool_decide_eq_false_2. rewrite S. intros [? ?]; discriminate. }
  clear S. run_block T.
Qed.

Lemma handleEvent_member_rejected event m net :
  eventType event = "NETBLOCK_MEMBER" ->
  errorState m = false -> api_key opts <> "" -> results m !! data event = None ->
  subnetlookup opts = true ->
  IPNetwork (data event) = Some net ->
  prefixlen net < maxsubnet opts ->
  handleEvent opts event m =
  (Returned tt, mark [data event] m,
   [LogDebug ("Received event, " +:+ eventType event +:+ ", from " +:+ module event);
    LogDebug ("Network size bigger than permitted: " +:+ pretty (prefixlen net) +:+ " > "
              +:+ pretty (maxsubnet opts))]).
Proof.
  intros T E K S L I P. apply String.eqb_neq in K. apply Z.ltb_lt in P.
  assert (S' : bool_decide (is_Some (results m !! data event)) = false).
  { apply bool_decide_eq_false_2. rewrite S. intros [? ?]; discriminate. }
  clear S. run_block T.
Qed.

Lemma handleEvent_addr_stopped event addr m w :
  checkForStop (world m) = (true, w) ->
  handleEvent_addr opts event addr m = (Returned Exit, at_world m w, []).
Proof.
  intros C. unfold handleEvent_addr, bind at 1, ask. rewrite C. reflexivity.
Qed.

Lemma handleEvent_addr_queried event addr m w :
  checkForStop (world m) = (false, w) ->
  handleEvent_addr opts event addr m =
  bind (query opts addr) (report opts event addr) (at_world m w).
Proof.
  intros C. unfold handleEvent_addr, bind at 1, ask. rewrite C.
  unfold at_world. destruct (bind _ _ _) as [[r m2] t2]. reflexivity.
Qed.

Lemma trace_bind {A B} (c : M A) (k : A -> M B) m :
  trace (bind c k m) =
  trace (c m) ++ match outcome (c m) with
                 | Returned a => trace (k a (final (c m)))
                 | Raised _ => []
                 end.
Proof.
  unfold bind. destruct (c m) as [[[a|e] m1] t1]; cbn.
  - destruct (k a m1) as [[r m2] t2]. reflexivity.
  - now rewrite app_nil_r.
Qed.

Lemma final_dropped {A} (x : Outcome A * Machine * list Effect) : final (dropped x) = final x.
Proof. destruct x as [[[a|e] m] t]; reflexivity. Qed.

Lemma trace_dropped {A} (x : Outcome A * Machine * list Effect) : trace (dropped x) = trace x.
Proof. destruct x as [[[a|e] m] t]; reflexivity. Qed.

(** *** Calls that return *)

Local Abbreviation finishes := (returns (fun _ => True)).

Lemma returns_bind {A B} (P : A -> Prop) (Q : B -> Prop) (c : M A) (k : A -> M B) :
  returns P c -> (forall a, P a -> returns Q (k a)) -> returns Q (bind c k).
Proof.
  intros Hc Hk m. destruct (Hc m) as (a & Oa & Pa). unfold bind.
  destruct (c m) as [[r m1] t1]. cbn in Oa. subst r.
  destruct (Hk a Pa m1) as (b & Ob & Qb).
  destruct (k a m1) as [[r m2] t2]. cbn in Ob. subst r. exists b. now split.
Qed.

Lemma finishes_bind {A B} (c : M A) (k : A -> M B) :
  finishes c -> (forall a, finishes (k a)) -> finishes (bind c k).
Proof. intros Hc Hk. eapply returns_bind; [exact Hc | intros a _; apply Hk]. Qed.

Lemma finishes_ret {A} (a : A) : finishes (ret a).
Proof. intros m. exists a. now split. Qed.

Lemma finishes_tell e : finishes (tell e).
Proof. intros m. exists tt. now split. Qed.

Lemma finishes_get {A} (f : Machine -> A) : finishes (get f).
Proof. intros m. exists (f m). now split. Qed.

Lemma finishes_ask {A} (f : World -> A * World) : finishes (ask f).
Proof. intros m. unfold ask. destruct (f (world m)) as [a w]. exists a. now split. Qed.

Lemma finishes_set_results k : finishes (set_results k).
Proof. intros m. exists tt. now split. Qed.

Lemma finishes_set_errorState b : finishes (set_errorState b).
Proof. intros m. exists tt. now split. Qed.

Lemma finishes_for_in {A} (body : A -> M unit) (l : list A) :
  (forall x, In x l -> finishes (body x)) -> finishes (for_in body l).
Proof.
  induction l as [|x l IH]; intros H; cbn [for_in]; [apply finishes_ret|].
  apply finishes_bind; [apply H; now left | intros _; apply IH].
  intros y I. apply H. now right.
Qed.

Lemma finishes_for_each {A} (body : A -> M Flow) (l : list A) :
  (forall x, finishes (body x)) -> finishes (for_each body l).
Proof.
  intros H. induction l as [|x l IH]; cbn [for_each]; [apply finishes_ret|].
  apply finishes_bind; [apply H | intros [|]; [exact IH | apply finishes_ret]].
Qed.

Ltac finishes_step :=
  first
    [ apply finishes_ret
    | apply finishes_tell
    | apply finishes_get
    | apply finishes_ask
    | apply finishes_set_results
    | apply finishes_set_errorState
    | apply finishes_bind; [|intros ?]
    | match goal with
      | |- returns _ (if ?b then _ else _) => destruct b eqn:?
      end ].

Lemma not_in_results_finishes s : hashable s = true -> finishes (not_in_results s).
Proof.
  intros H m. unfold not_in_results, bind, get, lift, ret, raise.
  destruct s; try discriminate H; cbn; eexists; split; reflexivity || exact Logic.I.
Qed.

Lemma sibling_finishes event s : hashable s = true -> finishes (sibling opts event s).
Proof.
  intros H. unfold sibling, notifyListeners.
  destruct (matches s);
    (apply finishes_bind; [now apply not_in_results_finishes | intros ?]);
    repeat finishes_step.
Qed.

Lemma subdomain_finishes event n : hashable n = true -> finishes (subdomain opts event n).
Proof.
  intros H. unfold subdomain, notifyListeners.
  apply finishes_bind; [now apply not_in_results_finishes | intros ?].
  repeat finishes_step.
Qed.

(** ** The statements of the specification *)

(** C7. [query] makes exactly one request, the one for the value it is given,
    and when [publicapi] is set the 15 second pause follows it at once,
    whether or not the request returned content; what else it does is
    logging.  Every value the loop gets to, that is every value for which
    the scan was not stopped first, is requested exactly once. *)
Theorem query_fetches_once_then_pauses :
  (forall qry m, exists logs,
      trace (query opts qry m) =
      Fetch (report_url opts qry) (_fetchtimeout opts) "SpiderFoot"
      :: (if publicapi opts then [Sleep 15] else []) ++ logs /\
      forallb is_log logs = true) /\
  (forall event addr m,
      fetched (trace (handleEvent_addr opts event addr m)) =
      if fst (checkForStop (world m)) then [] else [report_url opts addr]).
Proof.
  split.
  - intros qry m. rewrite query_run.
    destruct (fetchUrl _ _ _ (world m)) as [[content|] w];
      [destruct (json_loads content) as [v|e]|]; cbn [trace snd].
    + exists []. now rewrite app_nil_r.
    + eexists [_]. split; [rewrite <- app_comm_cons; reflexivity | reflexivity].
    + eexists [_]. split; [rewrite <- app_comm_cons; reflexivity | reflexivity].
  - intros event addr m. destruct (checkForStop (world m)) as [[|] w] eqn:C; cbn [fst].
    + now rewrite (handleEvent_addr_stopped _ _ _ _ C).
    + rewrite (handleEvent_addr_queried _ _ _ _ C), trace_bind, fetched_app.
      assert (Q : fetched (trace (query opts addr (at_world m w))) = [report_url opts addr]).
      { rewrite query_run.
        destruct (fetchUrl _ _ _ _) as [[content|] w'];
          [destruct (json_loads content) as [v|e]|];
          destruct (publicapi opts); reflexivity. }
      rewrite Q. destruct (outcome _) as [info|e]; [|reflexivity].
      destruct (report_steady event addr info (final (query opts addr (at_world m w))))
        as (_ & _ & F).
      now rewrite (reporting_fetched _ F).
Qed.

(** C3. With an empty [api_key], every call of [handleEvent] returns with
    the error state set, having requested nothing and notified nothing, and
    every later call returns at once, without any effect. *)
Theorem missing_api_key_halts event m :
  api_key opts = "" ->
  let r := handleEvent opts event m in
  outcome r = Returned tt /\
  errorState (final r) = true /\
  results (final r) = results m /\
  fetched (trace r) = [] /\ notified (trace r) = [] /\
  forall later, deliver opts later (final r) = (final r, []).
Proof.
  intros K. cbn zeta. destruct (errorState m) eqn:E.
  - rewrite handleEvent_error by exact E. cbn. repeat split; auto.
    intros later. now apply deliver_error.
  - rewrite handleEvent_api_key by assumption. cbn. repeat split.
    intros later. now apply deliver_error.
Qed.

(** C5. A NETBLOCK_OWNER or NETBLOCK_MEMBER event whose prefix length is
    below [maxnetblock], respectively [maxsubnet], returns without a request
    and without an event, in every state of the plugin.  With the lookup
    enabled and a prefix length of at least the maximum, a new block passes
    the guards: its addresses are the query list the loop runs over. *)
Theorem oversized_block_rejected :
  (forall event net m,
      IPNetwork (data event) = Some net ->
      eventType event = "NETBLOCK_OWNER" /\ prefixlen net < maxnetblock opts \/
      eventType event = "NETBLOCK_MEMBER" /\ prefixlen net < maxsubnet opts ->
      outcome (handleEvent opts event m) = Returned tt /\
      fetched (trace (handleEvent opts event m)) = [] /\
      notified (trace (handleEvent opts event m)) = []) /\
  (forall event net m,
      IPNetwork (data event) = Some net ->
      errorState m = false -> api_key opts <> "" -> results m !! data event = None ->
      eventType event = "NETBLOCK_OWNER" /\ netblocklookup opts = true /\
        maxnetblock opts <= prefixlen net \/
      eventType event = "NETBLOCK_MEMBER" /\ subnetlookup opts = true /\
        maxsubnet opts <= prefixlen net ->
      handleEvent opts event m =
      after [LogDebug ("Received event, " +:+ eventType event +:+ ", from " +:+ module event)]
        (dropped (for_each (handleEvent_addr opts event) (addresses net)
                    (mark (data event :: addresses net) m)))).
Proof.
  split.
  - intros event net m I H.
    destruct (results m !! data event) as [v|] eqn:S.
    { destruct (seen_skipped event m) as (O & _ & F & N); [rewrite S; eauto | auto]. }
    destruct (errorState m) eqn:E.
    { rewrite handleEvent_error by exact E. repeat split. }
    destruct (String.eqb_spec (api_key opts) "") as [K|K].
    { rewrite handleEvent_api_key by assumption. repeat split. }
    destruct H as [[T P]|[T P]].
    + destruct (netblocklookup opts) eqn:L.
      * rewrite (handleEvent_owner_rejected event m net) by assumption. repeat split.
      * rewrite handleEvent_owner_off by assumption. repeat split.
    + destruct (subnetlookup opts) eqn:L.
      * rewrite (handleEvent_member_rejected event m net) by assumption. repeat split.
      * rewrite handleEvent_member_off by assumption. repeat split.
  - intros event net m I E K S [(T & L & P)|(T & L & P)].
    + now apply handleEvent_owner.
    + now apply handleEvent_member.
Qed.

Lemma for_each_results event l m :
  results (final (for_each (handleEvent_addr opts event) l m)) = results m.
Proof. now destruct (for_each_careful event l m) as (R & _ & _). Qed.

(** An event that carries a value found in [results] any time earlier in the
    scan is skipped. *)
Lemma seen_earlier_skipped m later event :
  is_Some (results m !! data event) ->
  let m' := fst (deliver opts later m) in
  fetched (trace (handleEvent opts event m')) = [] /\
  notified (trace (handleEvent opts event m')) = [] /\
  (errorState m' = false -> api_key opts <> "" ->
   trace (handleEvent opts event m') =
   [LogDebug ("Received event, " +:+ eventType event +:+ ", from " +:+ module event);
    LogDebug ("Skipping " +:+ data event +:+ ", already checked.")]).
Proof.
  intros S. cbn zeta.
  destruct (deliver_growing later m) as (G & _ & _). apply G in S.
  destruct (seen_skipped event _ S) as (_ & _ & F & N). repeat split; auto.
  intros E K. now rewrite handleEvent_seen.
Qed.

(** C9. A block that passes the guards has all its addresses entered into
    [results] before the loop over them starts, so however the loop ends (a
    stop signal, requests without content, an exception) a later IP_ADDRESS
    event for one of them is skipped as already checked. *)
Theorem block_members_marked_before_queries event net m :
  eventType event = "NETBLOCK_OWNER" /\ netblocklookup opts = true /\
    maxnetblock opts <= prefixlen net \/
  eventType event = "NETBLOCK_MEMBER" /\ subnetlookup opts = true /\
    maxsubnet opts <= prefixlen net ->
  IPNetwork (data event) = Some net ->
  errorState m = false -> api_key opts <> "" -> results m !! data event = None ->
  handleEvent opts event m =
  after [LogDebug ("Received event, " +:+ eventType event +:+ ", from " +:+ module event)]
    (dropped (for_each (handleEvent_addr opts event) (addresses net)
                (mark (data event :: addresses net) m))) /\
  (forall a, In a (addresses net) ->
             is_Some (results (mark (data event :: addresses net) m) !! a)) /\
  (forall a later src, In a (addresses net) ->
      let m' := fst (deliver opts later (final (handleEvent opts event m))) in
      let r := handleEvent opts (mkEvent "IP_ADDRESS" src a) m' in
      fetched (trace r) = [] /\ notified (trace r) = [] /\
      (errorState m' = false ->
       trace r = [LogDebug ("Received event, IP_ADDRESS, from " +:+ src);
                  LogDebug ("Skipping " +:+ a +:+ ", already checked.")])).
Proof.
  intros H I E K S.
  assert (Run : handleEvent opts event m =
    after [LogDebug ("Received event, " +:+ eventType event +:+ ", from " +:+ module event)]
      (dropped (for_each (handleEvent_addr opts event) (addresses net)
                  (mark (data event :: addresses net) m)))).
  { destruct H as [(T & L & P)|(T & L & P)];
      [now apply handleEvent_owner | now apply handleEvent_member]. }
  assert (Marked : forall a, In a (addresses net) ->
                             is_Some (results (mark (data event :: addresses net) m) !! a)).
  { intros a Ia. apply mark_Some. right. now right. }
  split; [exact Run | split; [exact Marked|]].
  intros a later src Ia. cbn zeta.
  assert (Sa : is_Some (results (final (handleEvent opts event m)) !! a)).
  { rewrite Run. unfold after, final at 1. cbn [fst snd].
    rewrite final_dropped, for_each_results. now apply Marked. }
  destruct (seen_earlier_skipped _ later (mkEvent "IP_ADDRESS" src a) Sa) as (F & N & L).
  repeat split; auto.
Qed.


(** C4, as amended.  When the body of an answer is not parseable as JSON,
    [query] logs the error, sets [errorState] and returns [None]; a call of
    [handleEvent] that logged an error ends with [errorState] set, and every
    later call of the scan returns at once without any effect. *)
Theorem malformed_response_halts_later_events :
  (forall qry m content w e,
      fetchUrl (report_url opts qry) (_fetchtimeout opts) "SpiderFoot" (world m)
      = (Some content, w) ->
      json_loads content = inr e ->
      query opts qry m =
      (Returned JNull, mkMachine (results m) true w,
       Fetch (report_url opts qry) (_fetchtimeout opts) "SpiderFoot"
       :: (if publicapi opts then [Sleep 15] else [])
       ++ [LogError ("Error processing JSON response from VirusTotal: " +:+ e)])) /\
  (forall event m,
      Exists (fun e => is_LogError e = true) (trace (handleEvent opts event m)) ->
      errorState (final (handleEvent opts event m)) = true /\
      forall later,
        deliver opts later (final (handleEvent opts event m))
        = (final (handleEvent opts event m), [])).
Proof.
  split.
  - intros qry m content w e F J. rewrite query_run, F, J. reflexivity.
  - intros event m L.
    destruct (handleEvent_growing event m) as (_ & E & _).
    assert (E' : errorState (final (handleEvent opts event m)) = true) by auto.
    split; [exact E' | intros later; now apply deliver_error].
Qed.

(** *** The loop over the siblings inside a call *)










(** C10. A subdomain that is not in [results]: under [verify] it is
    notified as INTERNET_NAME_UNRESOLVED when it does not resolve and not at
    all as a host name when it does; without [verify] it is notified as
    INTERNET_NAME; DOMAIN_NAME follows when it is a domain.  So INTERNET_NAME
    only appears with [verify] off, and INTERNET_NAME_UNRESOLVED only with
    [verify] on for a name that does not resolve.  The subdomains are gone
    through for INTERNET_NAME events. *)
Theorem subdomains_notified event n m :
  let domain := if isDomain n (_internettlds opts)
                then [Notify (mkSpiderFootEvent "DOMAIN_NAME" n __name__ event)]
                else [] in
  (py_in n (results m) = Some false ->
   (verify opts = true ->
    forall resolved w, resolveHost n (world m) = (resolved, w) ->
    subdomain opts event n m =
    (Returned tt, at_world m w,
     (if resolved then []
      else [Notify (mkSpiderFootEvent "INTERNET_NAME_UNRESOLVED" n __name__ event)])
     ++ domain)) /\
   (verify opts = false ->
    subdomain opts event n m =
    (Returned tt, m,
     Notify (mkSpiderFootEvent "INTERNET_NAME" n __name__ event) :: domain))) /\
  (forall x, In x (notified (trace (subdomain opts event n m))) ->
             (sfType x = "INTERNET_NAME" -> verify opts = false) /\
             (sfType x = "INTERNET_NAME_UNRESOLVED" ->
              verify opts = true /\ fst (resolveHost n (world m)) = false)) /\
  (forall info l,
      eventType event = "INTERNET_NAME" ->
      dict_get "subdomains" info = Some (JArr l) ->
      forall m', subdomains opts event info m' = for_in (subdomain opts event) l m').
Proof.
  cbn zeta. split; [|split].
  - intros S. split.
    + intros V resolved w R. unfold subdomain, not_in_results, ask, notifyListeners, at_world.
      run_with use_equation.
      destruct resolved, (isDomain n (_internettlds opts)); reflexivity.
    + intros V. unfold subdomain, not_in_results, notifyListeners.
      run_with use_equation.
      destruct (isDomain n (_internettlds opts)); reflexivity.
  - intros x. unfold subdomain, not_in_results, ask, notifyListeners.
    destruct (py_in n (results m)) as [[|]|] eqn:S;
      destruct (verify opts) eqn:V;
      destruct (resolveHost n (world m)) as [[|] w] eqn:R;
      destruct (isDomain n (_internettlds opts)) eqn:D;
      run_with use_equation; cbn; intros H;
      repeat (destruct H as [<-|H];
              [cbn; split; intros Hx; try discriminate Hx; auto|]);
      destruct H.
  - intros info l T D m'. unfold subdomains. rewrite D, T.
    cbn [String.eqb Ascii.eqb Bool.eqb]. unfold bind, lift, ret. cbn [py_iter].
    destruct (for_in _ _ _) as [[r m2] t2]. reflexivity.
Qed.

Lemma netblock_indicator name :
  startswith name "NETBLOCK_" = true ->
  evt_infotype name = Some ("MALICIOUS_IPADDR", "ip-address").
Proof.
  intros N. unfold evt_infotype. rewrite N, orb_true_r.
  repeat match goal with
         | |- context [String.eqb name ?lit] =>
             destruct (String.eqb_spec name lit) as [->|_]; [discriminate N|]
         end.
  reflexivity.
Qed.

(** The indicator event for one flagged value. *)
Lemma flagged_value_indicator event addr m w content w' info n evt infotype :
  checkForStop (world m) = (false, w) ->
  fetchUrl (report_url opts addr) (_fetchtimeout opts) "SpiderFoot" w = (Some content, w') ->
  json_loads content = inl (JObj info) ->
  py_len (detected_urls info) = Some n -> (0 < n)%nat ->
  evt_infotype (eventType event) = Some (evt, infotype) ->
  malicious (trace (handleEvent_addr opts event addr m)) =
  [mkSpiderFootEvent evt
     (JStr ("VirusTotal [" +:+ addr +:+ "]" +:+ newline +:+
            "<SFURL>https://www.virustotal.com/en/" +:+ infotype +:+ "/" +:+
            addr +:+ "/information/</SFURL>"))
     __name__ event].
Proof.
  intros C F J L P E.
  rewrite (handleEvent_addr_queried _ _ _ _ C), trace_bind, malicious_app.
  rewrite query_run. cbn [world at_world]. rewrite F, J. cbn [trace outcome final fst snd].
  replace (malicious _) with (@nil SpiderFootEvent)
    by (destruct (publicapi opts); reflexivity).
  unfold report. rewrite L. unfold lift.
  rewrite (bind_Returned _ _ _ n (mkMachine (results m) (errorState m) w') []) by reflexivity.
  cbn [trace snd app].
  apply Nat.ltb_lt in P.
  rewrite (bind_Returned _ _ _ tt (mkMachine (results m) (errorState m) w')
             [LogInfo ("Found VirusTotal URL data for " +:+ addr);
              Notify (mkSpiderFootEvent evt
                (JStr ("VirusTotal [" +:+ addr +:+ "]" +:+ newline +:+
                       "<SFURL>https://www.virustotal.com/en/" +:+ infotype +:+ "/" +:+
                       addr +:+ "/information/</SFURL>")) __name__ event)])
    by (rewrite detected_run, P, E; reflexivity).
  cbn [trace snd]. rewrite malicious_app.
  apply evt_infotype_emitted in E as [_ Pre].
  assert (Tail : forall m0,
    malicious (trace (bind (domain_siblings opts event info)
                       (fun _ => bind (subdomains opts event info) (fun _ => ret Next)) m0))
    = []).
  { intros m0. apply hostname_malicious.
    assert (O : obeys (steady hostname)
                  (bind (domain_siblings opts event info)
                     (fun _ => bind (subdomains opts event info) (fun _ => ret Next)))).
    { apply obeys_bind; [exact (steady_app _) | apply domain_siblings_steady | intros _].
      apply obeys_bind; [exact (steady_app _) | apply subdomains_steady | intros _].
      apply obeys_ret. exact (steady_nil _). }
    apply (O m0). }
  rewrite Tail, app_nil_r. unfold malicious. cbn [notified List.filter sfType].
  now rewrite Pre.
Qed.

Lemma not_a_block name :
  startswith name "NETBLOCK_" = false ->
  String.eqb name "NETBLOCK_OWNER" = false /\ String.eqb name "NETBLOCK_MEMBER" = false.
Proof.
  intros N. split.
  - destruct (String.eqb_spec name "NETBLOCK_OWNER") as [->|_]; [discriminate N | reflexivity].
  - destruct (String.eqb_spec name "NETBLOCK_MEMBER") as [->|_]; [discriminate N | reflexivity].
Qed.

(** C1, as amended.  The indicator type follows the table in the code:
    IP_ADDRESS and every NETBLOCK_ type give MALICIOUS_IPADDR, the other four
    types their own indicator.  For every value whose answer is an object
    with a non-empty [detected_urls], the loop body notifies exactly one
    malicious-indicator event, of that type, about that value; an event that
    is not a block and passes the guards therefore notifies exactly one.  No
    event of a type outside the ones built in [handleEvent] is notified, in
    particular neither MALICIOUS_NETBLOCK nor MALICIOUS_SUBNET. *)
Theorem detected_urls_indicator :
  evt_infotype "IP_ADDRESS" = Some ("MALICIOUS_IPADDR", "ip-address") /\
  evt_infotype "AFFILIATE_IPADDR" = Some ("MALICIOUS_AFFILIATE_IPADDR", "ip-address") /\
  evt_infotype "INTERNET_NAME" = Some ("MALICIOUS_INTERNET_NAME", "domain") /\
  evt_infotype "AFFILIATE_INTERNET_NAME"
    = Some ("MALICIOUS_AFFILIATE_INTERNET_NAME", "domain") /\
  evt_infotype "CO_HOSTED_SITE" = Some ("MALICIOUS_COHOST", "domain") /\
  (forall name, startswith name "NETBLOCK_" = true ->
                evt_infotype name = Some ("MALICIOUS_IPADDR", "ip-address")) /\
  (forall event addr m w content w' info n evt infotype,
      checkForStop (world m) = (false, w) ->
      fetchUrl (report_url opts addr) (_fetchtimeout opts) "SpiderFoot" w
      = (Some content, w') ->
      json_loads content = inl (JObj info) ->
      py_len (detected_urls info) = Some n -> (0 < n)%nat ->
      evt_infotype (eventType event) = Some (evt, infotype) ->
      malicious (trace (handleEvent_addr opts event addr m)) =
      [mkSpiderFootEvent evt
         (JStr ("VirusTotal [" +:+ addr +:+ "]" +:+ newline +:+
                "<SFURL>https://www.virustotal.com/en/" +:+ infotype +:+ "/" +:+
                addr +:+ "/information/</SFURL>"))
         __name__ event]) /\
  (forall event m w content w' info n evt infotype,
      errorState m = false -> api_key opts <> "" -> results m !! data event = None ->
      startswith (eventType event) "NETBLOCK_" = false ->
      startswith (eventType event) "AFFILIATE" && negb (checkaffiliates opts) = false ->
      String.eqb (eventType event) "CO_HOSTED_SITE" && negb (checkcohosts opts) = false ->
      checkForStop (world m) = (false, w) ->
      fetchUrl (report_url opts (data event)) (_fetchtimeout opts) "SpiderFoot" w
      = (Some content, w') ->
      json_loads content = inl (JObj info) ->
      py_len (detected_urls info) = Some n -> (0 < n)%nat ->
      evt_infotype (eventType event) = Some (evt, infotype) ->
      malicious (trace (handleEvent opts event m)) =
      [mkSpiderFootEvent evt
         (JStr ("VirusTotal [" +:+ data event +:+ "]" +:+ newline +:+
                "<SFURL>https://www.virustotal.com/en/" +:+ infotype +:+ "/" +:+
                data event +:+ "/information/</SFURL>"))
         __name__ event]) /\
  (forall event m x,
      In x (notified (trace (handleEvent opts event m))) ->
      In (sfType x) emitted_types /\
      sfType x <> "MALICIOUS_NETBLOCK" /\ sfType x <> "MALICIOUS_SUBNET").
Proof.
  repeat (split; [reflexivity|]).
  split; [exact netblock_indicator | split; [|split]].
  - intros. eapply flagged_value_indicator; eassumption.
  - intros event m w content w' info n evt infotype Er K S N A Co C F J L P E.
    destruct (not_a_block _ N) as [NO NM].
    rewrite handleEvent_passes by auto.
    rewrite (lookups_single _ _ N).
    unfold after, trace at 1. cbn [snd]. rewrite trace_dropped.
    change (malicious ([?d] ++ ?t)) with (malicious t).
    eapply flagged_value_indicator; eassumption.
  - intros event m x I.
    destruct (handleEvent_growing event m) as (_ & _ & A).
    pose proof (announced_notified _ _ A I) as T. split; [exact T|].
    split; intros N; rewrite N in T; cbn in T;
      repeat (destruct T as [T|T]; [discriminate T|]); exact T.
Qed.

(** ** Further properties *)

(** *** The shape of a call *)

Ltac split_on_guards :=
  repeat first
    [ progress unfold bind, get, tell, ret, raise, lift, set_results, set_errorState,
        final, outcome, trace, after, dropped
    | progress cbn beta iota delta [fst snd for_each for_in negb andb orb]
    | use_equation
    | match goal with
      | |- context [if ?b then _ else _] =>
          lazymatch b with
          | context [results] => fail
          | _ => destruct b eqn:?
          end
      | |- context [match IPNetwork ?d with _ => _ end] => destruct (IPNetwork d) eqn:?
      end ].

(** An event with a new value, past the first three guards: either it is
    turned away with log lines only, or the loop of lines 182-262 runs; in
    both cases the value has been entered into [results]. *)
Lemma handleEvent_unseen event m :
  errorState m = false -> api_key opts <> "" -> results m !! data event = None ->
  exists x : Outcome unit * Machine * list Effect,
    handleEvent opts event m =
    after [LogDebug ("Received event, " +:+ eventType event +:+ ", from " +:+ module event)] x /\
    (x = lookups opts event (mark [data event] m) \/
     final x = mark [data event] m /\ forallb is_log (trace x) = true).
Proof.
  intros E K S. apply String.eqb_neq in K.
  assert (S' : bool_decide (is_Some (results m !! data event)) = false).
  { apply bool_decide_eq_false_2. rewrite S. intros [? ?]; discriminate. }
  clear S. unfold handleEvent, mark. cbn [fold_left].
  split_on_guards.
  all: try (destruct (lookups opts event _) as [[r m2] t2] eqn:L;
            eexists (r, m2, t2); split; [reflexivity | left; reflexivity]).
  all: eexists (_, _, _); split; [reflexivity | right; split; reflexivity].
Qed.

Lemma logs_fetched t : forallb is_log t = true -> fetched t = [].
Proof.
  induction t as [|e t IH]; [reflexivity|]. cbn [forallb]. intros H.
  apply andb_prop in H as [He Ht]. destruct e; try discriminate He; cbn; auto.
Qed.

Lemma logs_notified t : forallb is_log t = true -> notified t = [].
Proof.
  induction t as [|e t IH]; [reflexivity|]. cbn [forallb]. intros H.
  apply andb_prop in H as [He Ht]. destruct e; try discriminate He; cbn; auto.
Qed.

Lemma handleEvent_addr_fetched event addr m :
  fetched (trace (handleEvent_addr opts event addr m)) =
  if fst (checkForStop (world m)) then [] else [report_url opts addr].
Proof.
  destruct (checkForStop (world m)) as [[|] w] eqn:C; cbn [fst].
  - now rewrite (handleEvent_addr_stopped _ _ _ _ C).
  - rewrite (handleEvent_addr_queried _ _ _ _ C), trace_bind, fetched_app.
    assert (Q : fetched (trace (query opts addr (at_world m w))) = [report_url opts addr]).
    { rewrite query_run.
      destruct (fetchUrl _ _ _ _) as [[content|] w'];
        [destruct (json_loads content) as [v|e]|];
        destruct (publicapi opts); reflexivity. }
    rewrite Q. destruct (outcome _) as [info|e]; [|reflexivity].
    destruct (report_steady event addr info (final (query opts addr (at_world m w))))
      as (_ & _ & F).
    now rewrite (reporting_fetched _ F).
Qed.

Lemma for_each_fetched event l m :
  exists k, fetched (trace (for_each (handleEvent_addr opts event) l m))
            = map (report_url opts) (take k l).
Proof.
  revert m. induction l as [|a l IH]; intros m.
  - exists 0%nat. reflexivity.
  - cbn [for_each]. rewrite trace_bind, fetched_app, handleEvent_addr_fetched.
    destruct (checkForStop (world m)) as [[|] w] eqn:C; cbn [fst].
    + exists 0%nat. rewrite (handleEvent_addr_stopped _ _ _ _ C). reflexivity.
    + destruct (outcome (handleEvent_addr opts event a m)) as [[|]|e].
      * destruct (IH (final (handleEvent_addr opts event a m))) as [k Hk].
        exists (S k). rewrite Hk. reflexivity.
      * exists 1%nat. now destruct l.
      * exists 1%nat. now destruct l.
Qed.

Lemma lookups_fetched event m :
  exists k, fetched (trace (lookups opts event m))
            = map (report_url opts) (take k (values event)).
Proof.
  unfold values. destruct (startswith (eventType event) "NETBLOCK_") eqn:N.
  - destruct (IPNetwork (data event)) as [net|] eqn:I.
    + rewrite (lookups_block _ _ _ N I), trace_dropped. apply for_each_fetched.
    + exists 0%nat. unfold lookups, qrylist. rewrite N, I. reflexivity.
  - rewrite (lookups_single _ _ N), trace_dropped, handleEvent_addr_fetched.
    destruct (fst (checkForStop (world m))); [exists 0%nat | exists 1%nat]; reflexivity.
Qed.

Lemma handleEvent_fetched event m :
  exists k, fetched (trace (handleEvent opts event m))
            = map (report_url opts) (take k (values event)).
Proof.
  destruct (errorState m) eqn:E.
  { exists 0%nat. now rewrite handleEvent_error. }
  destruct (String.eqb_spec (api_key opts) "") as [K|K].
  { exists 0%nat. now rewrite handleEvent_api_key. }
  destruct (results m !! data event) as [v|] eqn:S.
  { exists 0%nat. rewrite handleEvent_seen; eauto. }
  destruct (handleEvent_unseen event m E K S) as (x & -> & [->|[_ L]]).
  - unfold after, trace at 1. cbn [snd app fetched]. apply lookups_fetched.
  - exists 0%nat. unfold after, trace at 1. cbn [snd app fetched].
    now rewrite logs_fetched.
Qed.

(** X1. The requests of a call are those for the first values of the event's
    query list, in the order of the list: its own value for an event that is
    not a block, the addresses of the block otherwise.  No value is skipped
    before a later one is requested. *)
Theorem requests_follow_the_query_list event m :
  exists k, fetched (trace (handleEvent opts event m))
            = map (report_url opts) (take k (values event)).
Proof. apply handleEvent_fetched. Qed.

(** *** The books of a call *)

Lemma slept_app t1 t2 : slept (t1 ++ t2) = slept t1 + slept t2.
Proof.
  induction t1 as [|e t1 IH]; [reflexivity|]. destruct e; cbn; rewrite IH; lia.
Qed.

Lemma accounted_app event t1 t2 :
  accounted opts event t1 -> accounted opts event t2 -> accounted opts event (t1 ++ t2).
Proof.
  intros (S1 & F1 & M1 & N1) (S2 & F2 & M2 & N2). repeat split.
  - rewrite slept_app, fetched_app, length_app, S1, S2.
    destruct (publicapi opts); lia.
  - apply Forall_app; auto.
  - rewrite malicious_app, fetched_app, !length_app. lia.
  - rewrite fetched_app, notified_app. intros H.
    apply app_eq_nil in H as [H1 H2]. now rewrite N1, N2.
Qed.

Lemma accounted_logs event t : forallb is_log t = true -> accounted opts event t.
Proof.
  intros L. unfold accounted, malicious.
  rewrite (logs_fetched _ L), (logs_notified _ L).
  repeat split; cbn; auto.
  - clear - L. induction t as [|e t IH]; [now destruct (publicapi opts)|].
    cbn [forallb] in L. apply andb_prop in L as [He Ht].
    destruct e; try discriminate He; cbn; auto.
  - clear - L. induction t as [|e t IH]; [constructor|].
    cbn [forallb] in L. apply andb_prop in L as [He Ht].
    constructor; [now destruct e | auto].
Qed.

Ltac sourced_step :=
  first
    [ apply obeys_bind; [exact (steady_app _) | | intros ?]
    | apply obeys_ret; exact (steady_nil _)
    | apply obeys_raise; exact (steady_nil _)
    | apply obeys_get; exact (steady_nil _)
    | apply obeys_lift; exact (steady_nil _)
    | apply steady_ask
    | apply steady_tell; cbn; auto
    | match goal with
      | |- obeys _ (if ?b then _ else _) => destruct b
      | |- obeys _ (match ?x with _ => _ end) => destruct x
      end ].

Lemma sibling_sourced event s : obeys (steady (sourced event)) (sibling opts event s).
Proof. unfold sibling, not_in_results, notifyListeners. repeat sourced_step. Qed.

Lemma subdomain_sourced event n : obeys (steady (sourced event)) (subdomain opts event n).
Proof. unfold subdomain, not_in_results, notifyListeners. repeat sourced_step. Qed.

Lemma report_sourced event addr info :
  obeys (steady (sourced event)) (report opts event addr info).
Proof.
  unfold report, domain_siblings, subdomains, detected, notifyListeners.
  repeat first
    [ apply obeys_for_in;
        [exact (steady_nil _) | exact (steady_app _)
        | first [apply sibling_sourced | apply subdomain_sourced]]
    | sourced_step ].
Qed.

Lemma hostname_tail event info m :
  Forall hostname
    (trace (bind (domain_siblings opts event info)
              (fun _ => bind (subdomains opts event info) (fun _ => ret Next)) m)).
Proof.
  assert (O : obeys (steady hostname)
                (bind (domain_siblings opts event info)
                   (fun _ => bind (subdomains opts event info) (fun _ => ret Next)))).
  { apply obeys_bind; [exact (steady_app _) | apply domain_siblings_steady | intros _].
    apply obeys_bind; [exact (steady_app _) | apply subdomains_steady | intros _].
    apply obeys_ret. exact (steady_nil _). }
  apply (O m).
Qed.

Lemma report_malicious event addr info m :
  (length (malicious (trace (report opts event addr info m))) <= 1)%nat.
Proof.
  destruct info; try (cbn; lia).
  unfold report. rewrite trace_bind.
  destruct (py_len (detected_urls members)) as [n|]; [|cbn; lia].
  cbn [lift ret trace outcome final fst snd app].
  rewrite trace_bind, malicious_app, detected_run.
  destruct (0 <? n)%nat;
    [destruct (evt_infotype (eventType event)) as [[evt infotype]|]|];
    cbn [trace outcome final fst snd];
    rewrite ?(hostname_malicious _ (hostname_tail _ _ _));
    unfold malicious; cbn [notified List.filter];
    try destruct (String.prefix _ _); cbn; lia.
Qed.

Lemma reporting_slept t : Forall reporting t -> slept t = 0.
Proof.
  induction 1 as [|e t He _ IH]; [reflexivity|]. destruct e; cbn in *; tauto.
Qed.

Lemma handleEvent_addr_accounted event addr m :
  accounted opts event (trace (handleEvent_addr opts event addr m)).
Proof.
  destruct (checkForStop (world m)) as [[|] w] eqn:C.
  { rewrite (handleEvent_addr_stopped _ _ _ _ C). now apply accounted_logs. }
  rewrite (handleEvent_addr_queried _ _ _ _ C), trace_bind.
  set (q := query opts addr (at_world m w)).
  assert (Q : slept (trace q) = (if publicapi opts then 15 else 0) /\
              fetched (trace q) = [report_url opts addr] /\ notified (trace q) = [] /\
              Forall (sourced event) (trace q)).
  { unfold q. rewrite query_run.
    destruct (fetchUrl _ _ _ _) as [[content|] w'];
      [destruct (json_loads content) as [v|e]|];
      destruct (publicapi opts); cbn; repeat split; repeat constructor. }
  destruct Q as (Qs & Qf & Qn & Qo).
  destruct (outcome q) as [info|e].
  - destruct (report_steady event addr info (final q)) as (_ & _ & R).
    destruct (report_sourced event addr info (final q)) as (_ & _ & So).
    pose proof (report_malicious event addr info (final q)) as Ma.
    repeat split.
    + rewrite slept_app, fetched_app, length_app, Qs, Qf,
        (reporting_slept _ R), (reporting_fetched _ R).
      destruct (publicapi opts); cbn; lia.
    + apply Forall_app; auto.
    + rewrite malicious_app, fetched_app, !length_app, Qf. unfold malicious at 1.
      rewrite Qn. cbn. lia.
    + rewrite fetched_app, Qf. discriminate.
  - rewrite app_nil_r. repeat split; auto.
    + rewrite Qs, Qf. destruct (publicapi opts); cbn; lia.
    + unfold malicious. rewrite Qn. cbn. lia.
Qed.

Lemma lookups_accounted event m : accounted opts event (trace (lookups opts event m)).
Proof.
  destruct (startswith (eventType event) "NETBLOCK_") eqn:N.
  - destruct (IPNetwork (data event)) as [net|] eqn:I.
    + rewrite (lookups_block _ _ _ N I), trace_dropped.
      apply (obeys_for_each (fun _ _ t => accounted opts event t)).
      * intros _. now apply accounted_logs.
      * intros _ _ _ t1 t2. apply accounted_app.
      * intros a m0. apply handleEvent_addr_accounted.
    + unfold lookups, qrylist. rewrite N, I. now apply accounted_logs.
  - rewrite (lookups_single _ _ N), trace_dropped. apply handleEvent_addr_accounted.
Qed.

Lemma handleEvent_accounted event m :
  accounted opts event (trace (handleEvent opts event m)).
Proof.
  destruct (errorState m) eqn:E.
  { rewrite handleEvent_error by exact E. now apply accounted_logs. }
  destruct (String.eqb_spec (api_key opts) "") as [K|K].
  { rewrite handleEvent_api_key by assumption. now apply accounted_logs. }
  destruct (results m !! data event) as [v|] eqn:S.
  { rewrite handleEvent_seen; eauto. now apply accounted_logs. }
  destruct (handleEvent_unseen event m E K S) as (x & -> & [->|[_ L]]);
    unfold after, trace at 1; cbn [snd].
  - apply accounted_app; [now apply accounted_logs | apply lookups_accounted].
  - apply accounted_app; now apply accounted_logs.
Qed.

(** X2. Over a whole scan the plugin pauses 15 seconds for every request it
    makes when [publicapi] is set, and never pauses when it is not. *)
Theorem pauses_match_requests events m :
  slept (snd (deliver opts events m)) =
  if publicapi opts
  then 15 * Z.of_nat (length (fetched (snd (deliver opts events m))))
  else 0.
Proof.
  revert m. induction events as [|e events IH]; intros m; cbn [deliver].
  - now destruct (publicapi opts).
  - destruct (handleEvent_accounted e m) as (S & _).
    destruct (handleEvent opts e m) as [[r m1] t1]. specialize (IH m1).
    destruct (deliver opts events m1) as [m2 t2]. cbn [snd trace] in *.
    rewrite slept_app, fetched_app, length_app, S, IH.
    destruct (publicapi opts); lia.
Qed.

(** X3. In a scan there are never more malicious-indicator events than
    requests, and as long as nothing was requested nothing is notified. *)
Theorem no_event_without_request events m :
  (length (malicious (snd (deliver opts events m)))
   <= length (fetched (snd (deliver opts events m))))%nat /\
  (fetched (snd (deliver opts events m)) = [] ->
   notified (snd (deliver opts events m)) = []).
Proof.
  revert m. induction events as [|e events IH]; intros m; cbn [deliver].
  - split; [cbn; lia | reflexivity].
  - destruct (handleEvent_accounted e m) as (_ & _ & M & N).
    destruct (handleEvent opts e m) as [[r m1] t1]. specialize (IH m1).
    destruct (deliver opts events m1) as [m2 t2]. cbn [snd trace] in *.
    destruct IH as [M2 N2]. split.
    + rewrite malicious_app, fetched_app, !length_app. lia.
    + rewrite fetched_app, notified_app. intros H.
      apply app_eq_nil in H as [H1 H2]. now rewrite N, N2.
Qed.

(** X4. Every event [handleEvent] notifies names the incoming event as its
    source and sfp_virustotal as its module. *)
Theorem events_name_their_source event m x :
  In x (notified (trace (handleEvent opts event m))) ->
  sfSource x = event /\ sfModule x = "sfp_virustotal".
Proof.
  destruct (handleEvent_accounted event m) as (_ & F & _).
  induction F as [|e t He _ IH]; [intros []|].
  destruct e; cbn [notified]; auto. intros [<-|H]; auto.
Qed.

(** *** What a call leaves behind *)

(** With a key and no error state, a call leaves the value of its event in
    [results], however it ends. *)
Lemma handleEvent_marks event m :
  errorState m = false -> api_key opts <> "" ->
  is_Some (results (final (handleEvent opts event m)) !! data event).
Proof.
  intros E K. destruct (results m !! data event) as [v|] eqn:S.
  { rewrite handleEvent_seen by (try rewrite S; eauto). cbn. rewrite S. eauto. }
  assert (Mk : is_Some (results (mark [data event] m) !! data event))
    by (apply mark_Some; right; now left).
  destruct (handleEvent_unseen event m E K S) as (x & -> & [->|[F _]]);
    unfold after, final at 1; cbn [fst snd].
  - destruct (lookups_growing event (mark [data event] m)) as (G & _). now apply G.
  - now rewrite F.
Qed.

(** X5. The second event that carries a value never causes a request or an
    event, whatever became of the first one (looked up, turned away by a
    guard, stopped, ended by an exception) and whatever was handled in
    between. *)
Theorem second_event_for_a_value_is_dropped event m later event' :
  data event' = data event ->
  let m' := fst (deliver opts later (final (handleEvent opts event m))) in
  fetched (trace (handleEvent opts event' m')) = [] /\
  notified (trace (handleEvent opts event' m')) = [].
Proof.
  intros D. cbn zeta.
  destruct (errorState m) eqn:E.
  { rewrite (handleEvent_error event m E). cbn [final fst snd].
    rewrite deliver_error by exact E. cbn [fst].
    now rewrite handleEvent_error. }
  destruct (String.eqb_spec (api_key opts) "") as [K|K].
  { rewrite (handleEvent_api_key event m E K). cbn [final fst snd].
    rewrite deliver_error by reflexivity. cbn [fst].
    now rewrite handleEvent_error. }
  pose proof (handleEvent_marks event m E K) as Mk. rewrite <- D in Mk.
  destruct (seen_earlier_skipped _ later event' Mk) as (F & N & _). now split.
Qed.

(** X6. An AFFILIATE event with [checkaffiliates] off, or a CO_HOSTED_SITE
    event with [checkcohosts] off, is turned away without a request, but only
    after its value was entered into [results]: the value is then skipped
    when it arrives again with an event type that is looked up. *)
Theorem turned_away_value_is_marked event m :
  startswith (eventType event) "AFFILIATE" = true /\ checkaffiliates opts = false \/
  eventType event = "CO_HOSTED_SITE" /\ checkcohosts opts = false ->
  errorState m = false -> api_key opts <> "" -> results m !! data event = None ->
  handleEvent opts event m =
  (Returned tt, mark [data event] m,
   [LogDebug ("Received event, " +:+ eventType event +:+ ", from " +:+ module event)]) /\
  forall later type src,
    let m' := fst (deliver opts later (mark [data event] m)) in
    fetched (trace (handleEvent opts (mkEvent type src (data event)) m')) = [] /\
    notified (trace (handleEvent opts (mkEvent type src (data event)) m')) = [].
Proof.
  intros G E K S. split.
  - apply String.eqb_neq in K.
    assert (S' : bool_decide (is_Some (results m !! data event)) = false).
    { apply bool_decide_eq_false_2. rewrite S. intros [? ?]; discriminate. }
    clear S. unfold handleEvent, mark. cbn [fold_left].
    destruct G as [[A C]|[T C]].
    + run_with use_equation. reflexivity.
    + assert (A : startswith (eventType event) "AFFILIATE" = false)
        by (rewrite T; reflexivity).
      assert (T' : String.eqb (eventType event) "CO_HOSTED_SITE" = true)
        by (rewrite T; reflexivity).
      run_with use_equation. reflexivity.
  - intros later type src. cbn zeta.
    assert (Mk : is_Some (results (mark [data event] m) !! data (mkEvent type src (data event))))
      by (apply mark_Some; right; now left).
    destruct (seen_earlier_skipped _ later _ Mk) as (F & N & _). now split.
Qed.

(** X7. A block event whose data netaddr cannot parse raises the exception
    of netaddr, whichever it is for that data, out of [handleEvent] when the
    lookup for its type is on; nothing was requested by then, and the value
    is in [results]. *)
Theorem malformed_block_raises event m :
  eventType event = "NETBLOCK_OWNER" /\ netblocklookup opts = true \/
  eventType event = "NETBLOCK_MEMBER" /\ subnetlookup opts = true ->
  IPNetwork (data event) = None ->
  errorState m = false -> api_key opts <> "" -> results m !! data event = None ->
  handleEvent opts event m =
  (Raised (IPNetwork_error (data event)), mark [data event] m,
   [LogDebug ("Received event, " +:+ eventType event +:+ ", from " +:+ module event)]).
Proof.
  intros G I E K S. apply String.eqb_neq in K.
  assert (S' : bool_decide (is_Some (results m !! data event)) = false).
  { apply bool_decide_eq_false_2. rewrite S. intros [? ?]; discriminate. }
  clear S. destruct G as [[T L]|[T L]]; run_block T.
Qed.

(** X8. Every event a scan notifies has a type declared in
    [producedEvents]. *)
Theorem only_declared_events events m x :
  In x (notified (snd (deliver opts events m))) -> In (sfType x) producedEvents.
Proof.
  intros H. destruct (deliver_growing events m) as (_ & _ & A).
  apply (proj1 emitted_types_produced). exact (announced_notified _ _ A H).
Qed.

(** *** Answers out of the ordinary *)

(** X9. An answer that is valid JSON but not an object: [null] is passed
    over in silence, like a missing answer but without the log line; any
    other value (a list, a string, a number, a boolean) makes the loop body
    raise AttributeError, without setting [errorState]. *)
Theorem answer_that_is_not_an_object event addr m w content w' v :
  checkForStop (world m) = (false, w) ->
  fetchUrl (report_url opts addr) (_fetchtimeout opts) "SpiderFoot" w = (Some content, w') ->
  json_loads content = inl v ->
  (forall info, v <> JObj info) ->
  handleEvent_addr opts event addr m =
  (match v with JNull => Returned Next | _ => Raised AttributeError end,
   at_world m w',
   Fetch (report_url opts addr) (_fetchtimeout opts) "SpiderFoot"
   :: (if publicapi opts then [Sleep 15] else [])).
Proof.
  intros C F J O.
  assert (Q : query opts addr (at_world m w) =
              (Returned v, at_world m w',
               Fetch (report_url opts addr) (_fetchtimeout opts) "SpiderFoot"
               :: (if publicapi opts then [Sleep 15] else []))).
  { rewrite query_run. cbn [world at_world]. rewrite F, J. reflexivity. }
  rewrite (handleEvent_addr_queried _ _ _ _ C), (bind_Returned _ _ _ _ _ _ Q).
  destruct v; cbn; rewrite ?app_nil_r; try reflexivity.
  now destruct (O members).
Qed.

(** X10. An object whose [detected_urls] has no length ([null], a number, a
    boolean) makes the loop body raise TypeError before anything is
    notified. *)
Theorem detected_urls_without_length event addr m w content w' info :
  checkForStop (world m) = (false, w) ->
  fetchUrl (report_url opts addr) (_fetchtimeout opts) "SpiderFoot" w = (Some content, w') ->
  json_loads content = inl (JObj info) ->
  py_len (detected_urls info) = None ->
  handleEvent_addr opts event addr m =
  (Raised TypeError, at_world m w',
   Fetch (report_url opts addr) (_fetchtimeout opts) "SpiderFoot"
   :: (if publicapi opts then [Sleep 15] else [])).
Proof.
  intros C F J L.
  assert (Q : query opts addr (at_world m w) =
              (Returned (JObj info), at_world m w',
               Fetch (report_url opts addr) (_fetchtimeout opts) "SpiderFoot"
               :: (if publicapi opts then [Sleep 15] else []))).
  { rewrite query_run. cbn [world at_world]. rewrite F, J. reflexivity. }
  rewrite (handleEvent_addr_queried _ _ _ _ C), (bind_Returned _ _ _ _ _ _ Q).
  unfold report. rewrite L. cbn. now rewrite app_nil_r.
Qed.

(** X11. Siblings outside the target that are not in [results] are notified
    as AFFILIATE_INTERNET_NAME one for one, in the order of the answer, a
    sibling listed twice being notified twice: the loop does not enter what
    it notifies into [results]. *)
Theorem every_listed_affiliate_is_notified event l m :
  (forall s, In s l -> matches s = false /\ py_in s (results m) = Some false) ->
  for_in (sibling opts event) l m =
  (Returned tt, m,
   map (fun s => Notify (mkSpiderFootEvent "AFFILIATE_INTERNET_NAME" s __name__ event)) l).
Proof.
  induction l as [|s l IH]; intros H; [reflexivity|].
  destruct (H s (or_introl eq_refl)) as [T S].
  assert (B : sibling opts event s m =
              (Returned tt, m,
               [Notify (mkSpiderFootEvent "AFFILIATE_INTERNET_NAME" s __name__ event)])).
  { unfold sibling, not_in_results. rewrite T. run_with use_equation. reflexivity. }
  cbn [for_in]. rewrite (bind_Returned _ _ _ _ _ _ B).
  rewrite IH by (intros s' I; apply H; now right). reflexivity.
Qed.

(** *** Answers that are handled *)

Lemma listing_loop (body : json -> M unit) v :
  listing v = true ->
  (forall s, hashable s = true -> finishes (body s)) ->
  finishes (bind (lift TypeError (py_iter v)) (fun l => for_in body l)).
Proof.
  unfold listing. intros L H. destruct (py_iter v) as [l|]; [|discriminate L].
  apply (returns_bind (fun l' => l' = l)); [intros m; exists l; now split | intros l' ->].
  apply finishes_for_in. intros s I. apply H.
  rewrite forallb_forall in L. specialize (L s I). now destruct s.
Qed.

Lemma domain_siblings_finishes event info :
  field listing "domain_siblings" info = true ->
  finishes (domain_siblings opts event info).
Proof.
  unfold field, domain_siblings. intros F.
  destruct (dict_get "domain_siblings" info) as [v|]; [|apply finishes_ret].
  destruct (_ || _); [|apply finishes_ret].
  apply listing_loop; [exact F | intros s; apply sibling_finishes].
Qed.

Lemma subdomains_finishes event info :
  field listing "subdomains" info = true ->
  finishes (subdomains opts event info).
Proof.
  unfold field, subdomains. intros F.
  destruct (dict_get "subdomains" info) as [v|]; [|apply finishes_ret].
  destruct (String.eqb _ _); [|apply finishes_ret].
  apply listing_loop; [exact F | intros s; apply subdomain_finishes].
Qed.

Lemma detected_finishes event addr n :
  evt_infotype (eventType event) <> None -> finishes (detected event addr n).
Proof.
  intros T m. rewrite detected_run.
  destruct (0 <? n)%nat; [|exists tt; now split].
  destruct (evt_infotype (eventType event)) as [[evt infotype]|]; [|contradiction].
  exists tt. now split.
Qed.

Lemma report_finishes event addr v :
  well_formed v = true -> evt_infotype (eventType event) <> None ->
  finishes (report opts event addr v).
Proof.
  intros W T. destruct v; try discriminate W; [apply finishes_ret|].
  cbn [well_formed] in W.
  apply andb_prop in W as [W Wsub]. apply andb_prop in W as [Wdet Wsib].
  unfold report.
  assert (L : exists n, py_len (detected_urls members) = Some n).
  { unfold field, sized, detected_urls in *.
    destruct (dict_get "detected_urls" members) as [d|]; [|now exists 0%nat].
    destruct (py_len d) as [n|]; [now exists n | discriminate Wdet]. }
  destruct L as [n ->]. cbn [lift].
  apply finishes_bind; [apply finishes_ret | intros ?].
  apply finishes_bind; [now apply detected_finishes | intros ?].
  apply finishes_bind; [now apply domain_siblings_finishes | intros ?].
  apply finishes_bind; [now apply subdomains_finishes | intros ?].
  apply finishes_ret.
Qed.

Lemma query_returns qry :
  (forall content v, json_loads content = inl v -> well_formed v = true) ->
  returns (fun v => well_formed v = true) (query opts qry).
Proof.
  intros H m. rewrite query_run.
  destruct (fetchUrl _ _ _ (world m)) as [[content|] w];
    [destruct (json_loads content) as [v|e] eqn:J|]; cbn.
  - exists v. split; [reflexivity | now apply (H content)].
  - exists JNull. now split.
  - exists JNull. now split.
Qed.

Lemma handleEvent_addr_finishes event addr :
  (forall content v, json_loads content = inl v -> well_formed v = true) ->
  evt_infotype (eventType event) <> None ->
  finishes (handleEvent_addr opts event addr).
Proof.
  intros H T. unfold handleEvent_addr.
  apply finishes_bind; [apply finishes_ask | intros [|]]; [apply finishes_ret|].
  eapply returns_bind; [now apply query_returns | intros v W].
  now apply report_finishes.
Qed.

Lemma lookups_finishes event :
  (forall content v, json_loads content = inl v -> well_formed v = true) ->
  evt_infotype (eventType event) <> None ->
  (startswith (eventType event) "NETBLOCK_" = true -> IPNetwork (data event) <> None) ->
  finishes (lookups opts event).
Proof.
  intros H T B. unfold lookups, qrylist.
  apply finishes_bind.
  - destruct (startswith (eventType event) "NETBLOCK_"); [|apply finishes_ret].
    destruct (IPNetwork (data event)) as [net|]; [|now destruct B]. cbn [lift].
    apply finishes_bind; [apply finishes_ret | intros ?].
    apply finishes_bind; [|intros ?; apply finishes_ret].
    apply finishes_for_in. intros k _. apply finishes_set_results.
  - intros l. apply finishes_bind; [|intros ?; apply finishes_ret].
    apply finishes_for_each. intros a. now apply handleEvent_addr_finishes.
Qed.

Lemma watched_indicator name : In name watchedEvents -> evt_infotype name <> None.
Proof.
  cbn. intros H.
  repeat (destruct H as [<-|H]; [discriminate|]). destruct H.
Qed.

(** X12. With options read from a dictionary that holds every key the
    code looks up (so that no lookup in [self.opts] fails), and with the
    calls into the engine returning as the host has them, [handleEvent]
    returns for an event of a watched type when netaddr can parse the data of
    a block and every answer that parses is [null] or an object whose
    [detected_urls] has a length and whose [domain_siblings] and
    [subdomains], where present, can be looped over and hold strings. *)
Theorem well_formed_answers_are_handled o event m :
  options o = Some opts ->
  (forall content v, json_loads content = inl v -> well_formed v = true) ->
  In (eventType event) watchedEvents ->
  (startswith (eventType event) "NETBLOCK_" = true -> IPNetwork (data event) <> None) ->
  outcome (handleEvent opts event m) = Returned tt.
Proof.
  intros _ H W B. apply watched_indicator in W.
  assert (F : finishes (handleEvent opts event)).
  { unfold handleEvent.
    destruct (startswith (eventType event) "NETBLOCK_") eqn:N.
    - destruct (IPNetwork (data event)) as [net|] eqn:I; [|now destruct B].
      repeat first
        [ apply lookups_finishes; [assumption | assumption | now rewrite N, I]
        | progress cbn [lift]
        | finishes_step
        | match goal with
          | |- returns _ (match ?x with _ => _ end) => destruct x
          end ].
    - destruct (not_a_block _ N) as [-> ->].
      repeat first
        [ apply lookups_finishes; [assumption | assumption | now rewrite N]
        | finishes_step
        | match goal with
          | |- returns _ (match ?x with _ => _ end) => destruct x
          end ]. }
  destruct (F m) as ([] & O & _). exact O.
Qed.

(** *** Set-up *)

Lemma fold_insert_lookup (l : list (string * optval)) (o : gmap string optval) k :
  NoDup (l.*1) ->
  fold_left (fun o kv => <[fst kv := snd kv]> o) l o !! k =
  match (list_to_map l : gmap string optval) !! k with
  | Some v => Some v
  | None => o !! k
  end.
Proof.
  revert o. induction l as [|[k' v'] l IH]; intros o N; [reflexivity|].
  cbn in N. apply NoDup_cons in N as [Nk N].
  cbn [fold_left fst snd list_to_map foldr uncurry]. rewrite (IH _ N).
  change (foldr (fun kv => <[kv.1:=kv.2]>) ∅ l) with (list_to_map l : gmap string optval).
  destruct (decide (k' = k)) as [<-|D].
  - rewrite (not_elem_of_list_to_map_1 _ _ Nk), !lookup_insert_eq. reflexivity.
  - rewrite !lookup_insert_ne by exact D. reflexivity.
Qed.

Lemma setup_lookup userOpts o m k :
  fst (setup userOpts o m) !! k =
  match userOpts !! k with Some v => Some v | None => o !! k end.
Proof.
  unfold setup. cbn [fst].
  rewrite fold_insert_lookup by apply NoDup_fst_map_to_list.
  now rewrite list_to_map_to_list.
Qed.

(** X13. After [setup] an option holds the value the user gave for it and
    otherwise the value it had before: nothing is checked against the
    options the module describes, and since the dictionary written to is the
    one of the class, what an earlier [setup] stored is still there when the
    later one does not mention the key. *)
Theorem setup_stores_user_options userOpts earlier o m m' k :
  fst (setup userOpts o m) !! k =
    match userOpts !! k with Some v => Some v | None => o !! k end /\
  (userOpts !! k = None ->
   fst (setup userOpts (fst (setup earlier o m)) m') !! k =
     match earlier !! k with Some v => Some v | None => o !! k end).
Proof.
  split; [apply setup_lookup|]. intros U. now rewrite !setup_lookup, U.
Qed.

(** X14. [setup] empties [results] but leaves the error state alone: a
    halted instance stays halted, and an instance that is not halted
    requests again a value it had looked up before. *)
Theorem setup_forgets_values_not_errors userOpts o m :
  (errorState m = true ->
   forall events,
     deliver opts events (snd (setup userOpts o m)) = (snd (setup userOpts o m), [])) /\
  (errorState m = false ->
   forall event w,
     api_key opts <> "" ->
     startswith (eventType event) "NETBLOCK_" = false ->
     startswith (eventType event) "AFFILIATE" && negb (checkaffiliates opts) = false ->
     String.eqb (eventType event) "CO_HOSTED_SITE" && negb (checkcohosts opts) = false ->
     checkForStop (world m) = (false, w) ->
     fetched (trace (handleEvent opts event (snd (setup userOpts o m))))
     = [report_url opts (data event)]).
Proof.
  split.
  - intros E events. now apply deliver_error.
  - intros E event w K N A C S.
    destruct (not_a_block _ N) as [NO NM].
    rewrite handleEvent_passes by (cbn [setup snd results errorState]; auto).
    rewrite (lookups_single _ _ N).
    unfold after, trace at 1. cbn [snd app fetched].
    rewrite trace_dropped, handleEvent_addr_fetched.
    cbn [mark setup snd world]. now rewrite S.
Qed.

(** X15. When the user options carry no [api_key], [setup] on the options
    of the class leaves the key empty, and the first event halts the
    instance with the error about the missing key. *)
Theorem setup_without_key_halts userOpts m event :
  userOpts !! "api_key" = None ->
  options (fst (setup userOpts class_opts m)) = Some opts ->
  errorState m = false ->
  api_key opts = "" /\
  handleEvent opts event (snd (setup userOpts class_opts m)) =
  (Returned tt, mkMachine ∅ true (world m),
   [LogDebug ("Received event, " +:+ eventType event +:+ ", from " +:+ module event);
    LogError "You enabled sfp_virustotal but did not set an API key!"]).
Proof.
  intros U O E.
  assert (K : api_key opts = "").
  { unfold options in O.
    assert (S : opt_str (fst (setup userOpts class_opts m)) "api_key" = Some "").
    { unfold opt_str. rewrite setup_lookup, U. reflexivity. }
    rewrite S in O.
    repeat match type of O with
           | match ?x with _ => _ end = Some _ => destruct x; try discriminate O
           end.
    injection O as <-. reflexivity. }
  split; [exact K|]. now rewrite handleEvent_api_key.
Qed.

(** *** One request for a value in a call *)

Lemma length_append a b :
  String.length (a +:+ b) = (String.length a + String.length b)%nat.
Proof.
  induction a as [|c a IH]; [reflexivity|].
  change (String c a +:+ b) with (String c (a +:+ b)).
  cbn [String.length plus]. now f_equal.
Qed.

Lemma append_inv_tail a b s : a +:+ s = b +:+ s -> a = b.
Proof.
  revert b. induction a as [|c a IH]; intros [|d b] H.
  - reflexivity.
  - apply (f_equal String.length) in H. rewrite !length_append in H. cbn in H. lia.
  - apply (f_equal String.length) in H. rewrite !length_append in H. cbn in H. lia.
  - change (String c (a +:+ s) = String d (b +:+ s)) in H.
    injection H as -> H. now rewrite (IH _ H).
Qed.

Lemma report_url_inj a b : report_url opts a = report_url opts b -> a = b.
Proof.
  unfold report_url. intros H.
  destruct (validIP a), (validIP b); try discriminate H;
    apply append_inv_tail in H; now apply String.app_inj in H.
Qed.

Lemma report_urls_NoDup l : NoDup l -> NoDup (map (report_url opts) l).
Proof.
  induction 1 as [|a l Ha Hl IH]; cbn [map]; constructor; [|exact IH].
  rewrite list_elem_of_In, in_map_iff. intros (b & E & I).
  apply report_url_inj in E. subst b. apply Ha. now apply list_elem_of_In.
Qed.

(** X16. Within one call no URL is requested twice when the values of the
    event are distinct, as the addresses of a block are. *)
Theorem no_repeated_request_in_a_call event m :
  NoDup (values event) -> NoDup (fetched (trace (handleEvent opts event m))).
Proof.
  intros N.
  destruct (handleEvent_fetched event m) as [k ->].
  apply report_urls_NoDup.
  eapply sublist_NoDup; [exact N | apply sublist_take].
Qed.

End Calls.

(** ** The small scan *)

#[local] Existing Instance Demo.host.

(** C2 fails on the code.  The claim: no value is requested twice in a scan.
    The code: an address that was looked up for its own IP_ADDRESS event is
    requested again when a block that contains it arrives, because the
    addresses of a block are entered into [results] but not looked for there. *)
Theorem overlapping_block_requests_address_again :
  times_fetched (report_url Demo.opts "10.0.0.1")
    (snd (deliver Demo.opts [Demo.address; Demo.block]
            (Demo.start [Some Demo.clean; Some Demo.clean; Some Demo.clean])))
  = 2%nat.
Proof. vm_compute. reflexivity. Qed.

(** C1 as stated fails for blocks: with one flagged address the single
    indicator event is a MALICIOUS_IPADDR, not the MALICIOUS_NETBLOCK of the
    table, and with two flagged addresses there are two events. *)
Lemma block_indicator_counterexample :
  let one := trace (handleEvent Demo.opts Demo.block
                      (Demo.start [Some Demo.flagged; Some Demo.clean])) in
  let two := trace (handleEvent Demo.opts Demo.block
                      (Demo.start [Some Demo.flagged; Some Demo.flagged])) in
  spec_indicator (eventType Demo.block) = Some "MALICIOUS_NETBLOCK" /\
  map sfType (malicious one) = ["MALICIOUS_IPADDR"] /\
  map sfType (malicious two) = ["MALICIOUS_IPADDR"; "MALICIOUS_IPADDR"] /\
  ~ (exists x, malicious one = [x] /\ spec_indicator (eventType Demo.block) = Some (sfType x)) /\
  ~ (exists x, malicious two = [x]).
Proof.
  cbn zeta. split; [reflexivity | split; [vm_compute; reflexivity | split;
    [vm_compute; reflexivity | split]]].
  - intros (x & H & T). vm_compute in H. injection H as <-. vm_compute in T. discriminate T.
  - intros (x & H). vm_compute in H. discriminate H.
Qed.

(** C4 as stated fails inside a block: after the malformed answer for the
    first address the second address is still requested, and its indicator
    event is notified. *)
Lemma malformed_response_counterexample :
  let t := trace (handleEvent Demo.opts Demo.block
                    (Demo.start [Some Demo.garbage; Some Demo.flagged])) in
  exists pre post,
    t = pre ++ LogError ("Error processing JSON response from VirusTotal: "
                         +:+ "Expecting value: line 1 column 1 (char 0)") :: post /\
    fetched post = [report_url Demo.opts "10.0.0.1"] /\
    map sfType (notified post) = ["MALICIOUS_IPADDR"].
Proof.
  cbn zeta.
  exists [LogDebug "Received event, NETBLOCK_OWNER, from sfp_ripe";
          Fetch (report_url Demo.opts "10.0.0.0") 5 "SpiderFoot"; Sleep 15].
  exists (skipn 4 (trace (handleEvent Demo.opts Demo.block
                            (Demo.start [Some Demo.garbage; Some Demo.flagged])))).
  split; [vm_compute; reflexivity | split; vm_compute; reflexivity].
Qed.



(** The two addresses of the block of the small scan. *)
Lemma block_network :
  IPNetwork (data Demo.block) = Some (mkNetwork 31 ["10.0.0.0"; "10.0.0.1"]).
Proof. reflexivity. Qed.

(** C3 on the small scan: with the default, empty key the first event sets
    the error state and nothing is requested. *)
Lemma missing_api_key_halts_witness :
  api_key default_opts = "" /\
  errorState (final (handleEvent default_opts Demo.address
                       (Demo.start [Some Demo.flagged]))) = true /\
  fetched (trace (handleEvent default_opts Demo.address
                    (Demo.start [Some Demo.flagged]))) = [].
Proof.
  split; [reflexivity|].
  pose proof (missing_api_key_halts default_opts Demo.address
                (Demo.start [Some Demo.flagged]) eq_refl) as H.
  cbn zeta in H. destruct H as (_ & E & _ & F & _). split; assumption.
Defined.

(** C5 on the small scan: the /31 block is rejected when only single
    addresses may be looked up, and both its addresses are requested under
    the default maximum of 24. *)
Lemma oversized_block_rejected_witness :
  prefixlen (mkNetwork 31 ["10.0.0.0"; "10.0.0.1"]) < maxnetblock Demo.strict_opts /\
  fetched (trace (handleEvent Demo.strict_opts Demo.block
                    (Demo.start [Some Demo.flagged]))) = [] /\
  maxnetblock Demo.opts <= prefixlen (mkNetwork 31 ["10.0.0.0"; "10.0.0.1"]) /\
  fetched (trace (handleEvent Demo.opts Demo.block
                    (Demo.start [Some Demo.flagged; Some Demo.clean])))
  = [report_url Demo.opts "10.0.0.0"; report_url Demo.opts "10.0.0.1"].
Proof.
  assert (P : prefixlen (mkNetwork 31 ["10.0.0.0"; "10.0.0.1"]) < maxnetblock Demo.strict_opts)
    by (cbn; lia).
  assert (Q : maxnetblock Demo.opts <= prefixlen (mkNetwork 31 ["10.0.0.0"; "10.0.0.1"]))
    by (cbn; lia).
  split; [exact P | split; [|split; [exact Q|]]].
  - apply (proj1 (oversized_block_rejected Demo.strict_opts) Demo.block
             (mkNetwork 31 ["10.0.0.0"; "10.0.0.1"]) (Demo.start [Some Demo.flagged])
             block_network (or_introl (conj eq_refl P))).
  - rewrite (proj2 (oversized_block_rejected Demo.opts) Demo.block
               (mkNetwork 31 ["10.0.0.0"; "10.0.0.1"])
               (Demo.start [Some Demo.flagged; Some Demo.clean])
               block_network eq_refl ltac:(discriminate) ltac:(reflexivity)
               (or_introl (conj eq_refl (conj eq_refl Q)))).
    vm_compute. reflexivity.
Defined.

(** C9 on the small scan: the request for the first address of the block
    returns no content, another event is handled in between, and the
    IP_ADDRESS event for the second address is still skipped. *)
Lemma block_members_marked_before_queries_witness :
  maxnetblock Demo.opts <= 31 /\
  fetched (trace (handleEvent Demo.opts Demo.address
                    (fst (deliver Demo.opts [Demo.name]
                            (final (handleEvent Demo.opts Demo.block (Demo.start [None])))))))
  = [].
Proof.
  assert (Q : maxnetblock Demo.opts <= prefixlen (mkNetwork 31 ["10.0.0.0"; "10.0.0.1"]))
    by (cbn; lia).
  split; [exact Q|].
  pose proof (block_members_marked_before_queries Demo.opts Demo.block
                (mkNetwork 31 ["10.0.0.0"; "10.0.0.1"]) (Demo.start [None])
                (or_introl (conj eq_refl (conj eq_refl Q)))
                block_network eq_refl ltac:(discriminate) ltac:(reflexivity)) as (_ & _ & H).
  apply (H "10.0.0.1" [Demo.name] "sfp_dnsresolve"). cbn. tauto.
Defined.


(** C4 on the small scan: an HTML page instead of a report sets the error
    state, and the two events delivered afterwards have no effect. *)
Lemma malformed_response_halts_later_events_witness :
  json_loads Demo.garbage = inr "Expecting value: line 1 column 1 (char 0)" /\
  errorState (final (query Demo.opts "10.0.0.1" (Demo.start [Some Demo.garbage]))) = true /\
  deliver Demo.opts [Demo.address; Demo.name]
    (final (handleEvent Demo.opts Demo.block
              (Demo.start [Some Demo.garbage; Some Demo.flagged; Some Demo.flagged])))
  = (final (handleEvent Demo.opts Demo.block
              (Demo.start [Some Demo.garbage; Some Demo.flagged; Some Demo.flagged])), []).
Proof.
  split; [reflexivity | split].
  - rewrite (proj1 (malformed_response_halts_later_events Demo.opts) "10.0.0.1"
               (Demo.start [Some Demo.garbage]) Demo.garbage []
               "Expecting value: line 1 column 1 (char 0)" eq_refl eq_refl).
    reflexivity.
  - apply (proj2 (malformed_response_halts_later_events Demo.opts) Demo.block
             (Demo.start [Some Demo.garbage; Some Demo.flagged; Some Demo.flagged])).
    vm_compute. do 3 apply Exists_cons_tl. apply Exists_cons_hd. reflexivity.
Defined.


(** C10 on the small scan: under [verify] a subdomain that resolves is not
    notified. *)
Lemma subdomains_notified_witness :
  py_in (JStr "www.example.com") (results (Demo.start [])) = Some false /\
  verify Demo.opts = true /\
  resolveHost (JStr "www.example.com") (world (Demo.start [])) = (true, []) /\
  subdomain Demo.opts Demo.name (JStr "www.example.com") (Demo.start [])
  = (Returned tt, Demo.start [], []).
Proof.
  pose proof (subdomains_notified Demo.opts Demo.name (JStr "www.example.com")
                (Demo.start [])) as H.
  cbn zeta in H. destruct H as (H & _).
  split; [reflexivity | split; [reflexivity | split; [reflexivity|]]].
  apply (proj1 (H eq_refl) eq_refl true [] eq_refl).
Defined.

(** C1 on the small scan: a flagged address of the block. *)
Lemma detected_urls_indicator_witness :
  checkForStop (world (Demo.start [Some Demo.flagged])) = (false, [Some Demo.flagged]) /\
  json_loads Demo.flagged
  = inl (JObj [("detected_urls", JArr [JStr "http://bad.example/"])]) /\
  evt_infotype (eventType Demo.block) = Some ("MALICIOUS_IPADDR", "ip-address") /\
  malicious (trace (handleEvent_addr Demo.opts Demo.block "10.0.0.0"
                      (Demo.start [Some Demo.flagged])))
  = [mkSpiderFootEvent "MALICIOUS_IPADDR"
       (JStr ("VirusTotal [10.0.0.0]" +:+ newline +:+
              "<SFURL>https://www.virustotal.com/en/ip-address/10.0.0.0/information/</SFURL>"))
       __name__ Demo.block].
Proof.
  split; [reflexivity | split; [reflexivity | split; [reflexivity|]]].
  destruct (detected_urls_indicator Demo.opts) as (_ & _ & _ & _ & _ & _ & H & _ & _).
  apply (H Demo.block "10.0.0.0" (Demo.start [Some Demo.flagged]) [Some Demo.flagged]
           Demo.flagged [] [("detected_urls", JArr [JStr "http://bad.example/"])] 1%nat
           "MALICIOUS_IPADDR" "ip-address" eq_refl eq_refl eq_refl eq_refl
           (Nat.lt_0_1) eq_refl).
Defined.

(** ** The further properties on the small scan *)

(** The indicator event for the flagged address of the small scan. *)
Lemma flagged_address_notified :
  notified (trace (handleEvent Demo.opts Demo.address (Demo.start [Some Demo.flagged])))
  = [mkSpiderFootEvent "MALICIOUS_IPADDR"
       (JStr ("VirusTotal [10.0.0.1]" +:+ newline +:+
              "<SFURL>https://www.virustotal.com/en/ip-address/10.0.0.1/information/</SFURL>"))
       __name__ Demo.address].
Proof. vm_compute. reflexivity. Qed.

(** X3 on the small scan: the block rejected for its size causes no
    request, and so no event. *)
Lemma no_event_without_request_witness :
  fetched (snd (deliver Demo.strict_opts [Demo.block] (Demo.start [Some Demo.flagged]))) = [] /\
  notified (snd (deliver Demo.strict_opts [Demo.block] (Demo.start [Some Demo.flagged]))) = [].
Proof.
  assert (F : fetched (snd (deliver Demo.strict_opts [Demo.block]
                              (Demo.start [Some Demo.flagged]))) = [])
    by (vm_compute; reflexivity).
  split; [exact F|].
  exact (proj2 (no_event_without_request Demo.strict_opts [Demo.block]
                  (Demo.start [Some Demo.flagged])) F).
Defined.

(** X4 on the small scan: the indicator event for the flagged address. *)
Lemma events_name_their_source_witness :
  let x := mkSpiderFootEvent "MALICIOUS_IPADDR"
             (JStr ("VirusTotal [10.0.0.1]" +:+ newline +:+
                    "<SFURL>https://www.virustotal.com/en/ip-address/10.0.0.1/information/</SFURL>"))
             __name__ Demo.address in
  In x (notified (trace (handleEvent Demo.opts Demo.address
                           (Demo.start [Some Demo.flagged])))) /\
  sfSource x = Demo.address /\ sfModule x = "sfp_virustotal".
Proof.
  cbn zeta.
  assert (I : In (mkSpiderFootEvent "MALICIOUS_IPADDR"
                    (JStr ("VirusTotal [10.0.0.1]" +:+ newline +:+
                           "<SFURL>https://www.virustotal.com/en/ip-address/10.0.0.1/information/</SFURL>"))
                    __name__ Demo.address)
                (notified (trace (handleEvent Demo.opts Demo.address
                                    (Demo.start [Some Demo.flagged])))))
    by (rewrite flagged_address_notified; left; reflexivity).
  split; [exact I|].
  exact (events_name_their_source Demo.opts Demo.address (Demo.start [Some Demo.flagged]) _ I).
Defined.

(** X5 on the small scan: the address arrives as an affiliate first, and
    after another event as an address of the target. *)
Lemma second_event_for_a_value_is_dropped_witness :
  data Demo.address = data Demo.affiliate /\
  fetched (trace (handleEvent Demo.opts Demo.address
                    (fst (deliver Demo.opts [Demo.name]
                            (final (handleEvent Demo.opts Demo.affiliate
                                      (Demo.start [Some Demo.flagged; Some Demo.clean])))))))
  = [] /\
  notified (trace (handleEvent Demo.opts Demo.address
                     (fst (deliver Demo.opts [Demo.name]
                             (final (handleEvent Demo.opts Demo.affiliate
                                       (Demo.start [Some Demo.flagged; Some Demo.clean])))))))
  = [].
Proof.
  split; [reflexivity|].
  exact (second_event_for_a_value_is_dropped Demo.opts Demo.affiliate
           (Demo.start [Some Demo.flagged; Some Demo.clean]) [Demo.name] Demo.address eq_refl).
Defined.

(** X6 on the small scan: the affiliate address with affiliates left out. *)
Lemma turned_away_value_is_marked_witness :
  startswith (eventType Demo.affiliate) "AFFILIATE" = true /\
  checkaffiliates Demo.narrow_opts = false /\
  handleEvent Demo.narrow_opts Demo.affiliate (Demo.start [Some Demo.flagged]) =
  (Returned tt, mark ["10.0.0.1"] (Demo.start [Some Demo.flagged]),
   [LogDebug "Received event, AFFILIATE_IPADDR, from sfp_dnsresolve"]) /\
  fetched (trace (handleEvent Demo.narrow_opts Demo.address
                    (mark ["10.0.0.1"] (Demo.start [Some Demo.flagged])))) = [].
Proof.
  pose proof (turned_away_value_is_marked Demo.narrow_opts Demo.affiliate
                (Demo.start [Some Demo.flagged])
                (or_introl (conj eq_refl eq_refl)) eq_refl ltac:(discriminate) eq_refl)
    as [H L].
  split; [reflexivity | split; [reflexivity | split; [exact H|]]].
  exact (proj1 (L [] "IP_ADDRESS" "sfp_dnsresolve")).
Defined.

(** X7 on the small scan: a prefix length netaddr does not accept, and a
    block with two prefixes. *)
Lemma malformed_block_raises_witness :
  IPNetwork "10.0.0.0/33" = None /\
  handleEvent Demo.opts (mkEvent "NETBLOCK_OWNER" "sfp_ripe" "10.0.0.0/33")
    (Demo.start [Some Demo.flagged]) =
  (Raised AddrFormatError, mark ["10.0.0.0/33"] (Demo.start [Some Demo.flagged]),
   [LogDebug "Received event, NETBLOCK_OWNER, from sfp_ripe"]) /\
  IPNetwork "1.2.3.4/24/5" = None /\
  handleEvent Demo.opts (mkEvent "NETBLOCK_MEMBER" "sfp_ripe" "1.2.3.4/24/5")
    (Demo.start [Some Demo.flagged]) =
  (Raised ValueError, mark ["1.2.3.4/24/5"] (Demo.start [Some Demo.flagged]),
   [LogDebug "Received event, NETBLOCK_MEMBER, from sfp_ripe"]).
Proof.
  split; [reflexivity | split; [|split; [reflexivity|]]].
  - exact (malformed_block_raises Demo.opts (mkEvent "NETBLOCK_OWNER" "sfp_ripe" "10.0.0.0/33")
             (Demo.start [Some Demo.flagged])
             (or_introl (conj eq_refl eq_refl)) eq_refl eq_refl ltac:(discriminate) eq_refl).
  - exact (malformed_block_raises Demo.opts (mkEvent "NETBLOCK_MEMBER" "sfp_ripe" "1.2.3.4/24/5")
             (Demo.start [Some Demo.flagged])
             (or_intror (conj eq_refl eq_refl)) eq_refl eq_refl ltac:(discriminate) eq_refl).
Defined.

(** X8 on the small scan: the indicator event for the flagged address. *)
Lemma only_declared_events_witness :
  let x := mkSpiderFootEvent "MALICIOUS_IPADDR"
             (JStr ("VirusTotal [10.0.0.1]" +:+ newline +:+
                    "<SFURL>https://www.virustotal.com/en/ip-address/10.0.0.1/information/</SFURL>"))
             __name__ Demo.address in
  In x (notified (snd (deliver Demo.opts [Demo.address] (Demo.start [Some Demo.flagged])))) /\
  In (sfType x) producedEvents.
Proof.
  cbn zeta.
  assert (I : In (mkSpiderFootEvent "MALICIOUS_IPADDR"
                    (JStr ("VirusTotal [10.0.0.1]" +:+ newline +:+
                           "<SFURL>https://www.virustotal.com/en/ip-address/10.0.0.1/information/</SFURL>"))
                    __name__ Demo.address)
                (notified (snd (deliver Demo.opts [Demo.address]
                                  (Demo.start [Some Demo.flagged])))))
    by (vm_compute; left; reflexivity).
  split; [exact I|].
  exact (only_declared_events Demo.opts [Demo.address] (Demo.start [Some Demo.flagged]) _ I).
Defined.

(** X9 with the other parser: the answer [[]]. *)
Lemma answer_that_is_not_an_object_witness :
  @json_loads Odd.host "[]" = inl (JArr []) /\
  @handleEvent_addr Odd.host Demo.opts Demo.address "10.0.0.1" (Odd.start [Some "[]"]) =
  (Raised AttributeError, @at_world Odd.host (Odd.start [Some "[]"]) [],
   [Fetch (@report_url Odd.host Demo.opts "10.0.0.1") 5 "SpiderFoot"; Sleep 15]).
Proof.
  split; [reflexivity|].
  exact (@answer_that_is_not_an_object Odd.host Demo.opts Demo.address "10.0.0.1"
           (Odd.start [Some "[]"]) [Some "[]"] "[]" [] (JArr [])
           eq_refl eq_refl eq_refl (fun info => ltac:(discriminate))).
Defined.

(** X10 with the other parser: the answer [{"detected_urls": null}]. *)
Lemma detected_urls_without_length_witness :
  @json_loads Odd.host Odd.unsized = inl (JObj [("detected_urls", JNull)]) /\
  py_len (detected_urls [("detected_urls", JNull)]) = None /\
  @handleEvent_addr Odd.host Demo.opts Demo.address "10.0.0.1"
    (Odd.start [Some Odd.unsized]) =
  (Raised TypeError, @at_world Odd.host (Odd.start [Some Odd.unsized]) [],
   [Fetch (@report_url Odd.host Demo.opts "10.0.0.1") 5 "SpiderFoot"; Sleep 15]).
Proof.
  split; [reflexivity | split; [reflexivity|]].
  exact (@detected_urls_without_length Odd.host Demo.opts Demo.address "10.0.0.1"
           (Odd.start [Some Odd.unsized]) [Some Odd.unsized] Odd.unsized []
           [("detected_urls", JNull)] eq_refl eq_refl eq_refl eq_refl).
Defined.

(** X11 on the small scan: a sibling on another domain, listed twice. *)
Lemma every_listed_affiliate_is_notified_witness :
  matches (JStr "mail.example.org") = false /\
  py_in (JStr "mail.example.org") (results (Demo.start [])) = Some false /\
  for_in (sibling Demo.opts Demo.address)
    [JStr "mail.example.org"; JStr "mail.example.org"] (Demo.start []) =
  (Returned tt, Demo.start [],
   [Notify (mkSpiderFootEvent "AFFILIATE_INTERNET_NAME" (JStr "mail.example.org")
              __name__ Demo.address);
    Notify (mkSpiderFootEvent "AFFILIATE_INTERNET_NAME" (JStr "mail.example.org")
              __name__ Demo.address)]).
Proof.
  split; [reflexivity | split; [reflexivity|]].
  refine (every_listed_affiliate_is_notified Demo.opts Demo.address
            [JStr "mail.example.org"; JStr "mail.example.org"] (Demo.start []) _).
  intros s [<-|[<-|[]]]; split; reflexivity.
Defined.

(** X12 on the small scan: the options are those left by a set-up with a
    key, the parser of the small scan yields only well-formed answers, and
    the block is handled to the end. *)
Lemma well_formed_answers_are_handled_witness :
  options (fst (setup Demo.userOpts class_opts (Demo.start []))) = Some Demo.opts /\
  (forall content v, json_loads content = inl v -> well_formed v = true) /\
  In (eventType Demo.block) watchedEvents /\
  IPNetwork (data Demo.block) <> None /\
  outcome (handleEvent Demo.opts Demo.block (Demo.start [Some Demo.flagged; Some Demo.clean]))
  = Returned tt.
Proof.
  assert (O : options (fst (setup Demo.userOpts class_opts (Demo.start []))) = Some Demo.opts)
    by (vm_compute; reflexivity).
  assert (W : forall content v, json_loads content = inl v -> well_formed v = true).
  { intros content v. cbn [json_loads Demo.host].
    destruct (String.eqb content Demo.flagged); [intros [= <-]; reflexivity|].
    destruct (String.eqb content Demo.clean); [intros [= <-]; reflexivity|].
    discriminate. }
  assert (I : In (eventType Demo.block) watchedEvents) by (cbn; tauto).
  assert (N : IPNetwork (data Demo.block) <> None) by discriminate.
  split; [exact O | split; [exact W | split; [exact I | split; [exact N|]]]].
  exact (well_formed_answers_are_handled Demo.opts _ Demo.block
           (Demo.start [Some Demo.flagged; Some Demo.clean]) O W I (fun _ => N)).
Defined.

(** X13 on the small scan: the key of an earlier set-up is still there
    after a set-up without one. *)
Lemma setup_stores_user_options_witness :
  Demo.keyless !! "api_key" = None /\
  fst (setup Demo.keyless (fst (setup Demo.userOpts class_opts (Demo.start [])))
         (Demo.start [])) !! "api_key"
  = Some (OStr "k").
Proof.
  assert (U : Demo.keyless !! "api_key" = None) by (vm_compute; reflexivity).
  split; [exact U|].
  rewrite (proj2 (setup_stores_user_options Demo.keyless Demo.userOpts class_opts
                    (Demo.start []) (Demo.start []) "api_key") U).
  vm_compute. reflexivity.
Defined.

(** X14 on the small scan: the address looked up before the set-up is
    requested again after it, and a halted instance stays halted. *)
Lemma setup_forgets_values_not_errors_witness :
  let m := final (handleEvent Demo.opts Demo.address
                    (Demo.start [Some Demo.clean; Some Demo.clean])) in
  let halted := final (handleEvent Demo.opts Demo.address (Demo.start [Some Demo.garbage])) in
  results m !! "10.0.0.1" = Some true /\
  errorState m = false /\
  fetched (trace (handleEvent Demo.opts Demo.address (snd (setup Demo.userOpts class_opts m))))
  = [report_url Demo.opts "10.0.0.1"] /\
  errorState halted = true /\
  deliver Demo.opts [Demo.name] (snd (setup Demo.userOpts class_opts halted))
  = (snd (setup Demo.userOpts class_opts halted), []).
Proof.
  cbn zeta.
  split; [vm_compute; reflexivity | split; [vm_compute; reflexivity | split; [|split]]].
  - refine (proj2 (setup_forgets_values_not_errors Demo.opts Demo.userOpts class_opts _)
              _ Demo.address [Some Demo.clean] _ eq_refl eq_refl eq_refl _).
    + vm_compute. reflexivity.
    + discriminate.
    + vm_compute. reflexivity.
  - vm_compute. reflexivity.
  - refine (proj1 (setup_forgets_values_not_errors Demo.opts Demo.userOpts class_opts _)
              _ [Demo.name]).
    vm_compute. reflexivity.
Defined.

(** X15 on the small scan: a set-up without a key. *)
Lemma setup_without_key_halts_witness :
  Demo.keyless !! "api_key" = None /\
  options (fst (setup Demo.keyless class_opts (Demo.start [Some Demo.flagged])))
  = Some default_opts /\
  handleEvent default_opts Demo.address
    (snd (setup Demo.keyless class_opts (Demo.start [Some Demo.flagged]))) =
  (Returned tt, mkMachine ∅ true [Some Demo.flagged],
   [LogDebug "Received event, IP_ADDRESS, from sfp_dnsresolve";
    LogError "You enabled sfp_virustotal but did not set an API key!"]).
Proof.
  assert (U : Demo.keyless !! "api_key" = None) by (vm_compute; reflexivity).
  assert (O : options (fst (setup Demo.keyless class_opts (Demo.start [Some Demo.flagged])))
              = Some default_opts) by (vm_compute; reflexivity).
  split; [exact U | split; [exact O|]].
  exact (proj2 (setup_without_key_halts default_opts Demo.keyless
                  (Demo.start [Some Demo.flagged]) Demo.address U O eq_refl)).
Defined.

(** X16 on the small scan: the two addresses of the block. *)
Lemma no_repeated_request_in_a_call_witness :
  NoDup (values Demo.block) /\
  NoDup (fetched (trace (handleEvent Demo.opts Demo.block
                           (Demo.start [Some Demo.flagged; Some Demo.clean])))).
Proof.
  assert (N : NoDup (values Demo.block)).
  { change (NoDup ["10.0.0.0"; "10.0.0.1"]).
    repeat constructor; rewrite ?list_elem_of_In; cbn; intuition discriminate. }
  split; [exact N|].
  exact (no_repeated_request_in_a_call Demo.opts Demo.block
           (Demo.start [Some Demo.flagged; Some Demo.clean]) N).
Defined.
